(** * The benchmark master process (cluster controller)

    A shallow embedding of the master script of the load-generation benchmark: the
    script forks [argv.processes] workers, hands each one a job when it comes
    online, folds the per-second counters the workers report, and decides the
    exit status of the run.

    JavaScript numbers that are counts (worker counts, iteration counters,
    operation counters; a JavaScript number holds them exactly up to 2^53)
    are modelled as [Z]; the operation mix, which the
    script computes with a division, is modelled with binary64 floats, which
    is what a JavaScript number is. *)

From Stdlib Require Import ZArith Floats Lia.
From stdpp Require Import gmap strings list.

(** ** Values and configuration *)

(** The values a configuration field can hold, as far as the script looks at
    them. *)
Inductive jsval :=
| JUndefined
| JNumber (n : Z)
| JString (s : string).

(** [v === 'lit'] for a string literal. *)
Definition strict_eq_string (v : jsval) (lit : string) : bool :=
  match v with
  | JString s => String.eqb s lit
  | _ => false
  end.

(** One element of [argv.querySpec]. *)
Record query_config := {
  qtype : jsval;
  bin : jsval;
  min : jsval;
  max : jsval;
  value : jsval
}.

(** [config.json], read into [argv].  [time] holds the result of
    [stats.parse_time_to_secs] (line 76), a function of the stats module;
    [None] stands for [undefined]. *)
Record config := {
  processes : Z;
  operations : float;
  reads : float;
  writes : float;
  namespace : jsval;
  set : jsval;
  keyRange : jsval * jsval;
  binSpec : jsval;
  querySpec : option (list query_config);
  scanSpec : option (list jsval);
  time : option Z;
  iterations : option Z;
  silent : bool;
  summary : bool
}.

(** [v !== undefined]. *)
Definition defined {A : Type} (v : option A) : bool :=
  match v with
  | Some _ => true
  | None => false
  end.

Definition OP_TYPES : nat := 4.
Definition STATS : nat := 3.

Section Globals.

Variable argv : config.

(** Lines 49-57. *)
Definition queryWorkers : Z :=
  match querySpec argv with
  | Some qs => Z.of_nat (length qs)
  | None => 0
  end.

Definition scanWorkers : Z :=
  match scanSpec argv with
  | Some ss => Z.of_nat (length ss)
  | None => 0
  end.

Definition rwWorkers : Z := processes argv - queryWorkers - scanWorkers.

(** Lines 64-73: the operation mix. *)
Definition FOPS : float := (operations argv / (reads argv + writes argv))%float.
Definition ROPS0 : float := (FOPS * reads argv)%float.
Definition WOPS : float := (FOPS * writes argv)%float.
Definition shortfall : bool := PrimFloat.ltb (ROPS0 + WOPS)%float (operations argv).
Definition DOPS : float := (operations argv - (ROPS0 + WOPS))%float.
Definition ROPS : float := if shortfall then (ROPS0 + DOPS)%float else ROPS0.

(** Lines 75-78: a duration disables the iteration limit. *)
Definition argv_iterations : option Z :=
  match time argv with
  | Some _ => None
  | None => iterations argv
  end.

End Globals.

Arguments queryWorkers : simpl never.
Arguments scanWorkers : simpl never.
Arguments rwWorkers : simpl never.

(** ** The interval counters table *)

(** [interval_stats]: an array of [OP_TYPES] rows (read, write, query, scan)
    of [STATS] cells (operations, timeouts, errors). *)
Definition table := list (list Z).

(** Line 258. *)
Definition zero_table : table :=
  [[0; 0; 0]; [0; 0; 0]; [0; 0; 0]; [0; 0; 0]]%Z.

(** [t[i][j]]; [None] when the row or the cell is missing, where the
    script throws a TypeError (no row) or computes with [undefined] (no
    cell). *)
Definition cell (t : table) (i j : nat) : option Z :=
  row ← t !! i; row !! j.

(** [t[i][j] = v], on a row that exists. *)
Definition set_cell (t : table) (i j : nat) (v : Z) : table :=
  alter (fun row => <[j := v]> row) i t.

(** A [for (var k = 0; k < n; k++)] loop whose body may fail. *)
Fixpoint for_each {S : Type} (idx : list nat) (body : nat -> S -> option S)
    (s : S) : option S :=
  match idx with
  | [] => Some s
  | k :: idx' =>
      match body k s with
      | Some s' => for_each idx' body s'
      | None => None
      end
  end.

(** Line 183: [interval_stats[i][j] = interval_stats[i][j] + interval_worker_stats[i][j]]. *)
Definition add_cell (worker_stats : table) (i j : nat) (g : table) : option table :=
  a ← cell g i j;
  b ← cell worker_stats i j;
  Some (set_cell g i j (a + b)%Z).

(** Lines 181-185. *)
Definition fold_interval (worker_stats g : table) : option table :=
  for_each (seq 0 OP_TYPES)
    (fun i => for_each (seq 0 STATS) (fun j => add_cell worker_stats i j)) g.

(** The shape of a counters table: [OP_TYPES] rows of [STATS] cells. *)
Definition wf_table (t : table) : bool :=
  (length t =? OP_TYPES)%nat && forallb (fun row => (length row =? STATS)%nat) t.

(** The cell-by-cell sum of two tables. *)
Definition table_add (g w : table) : table :=
  zip_with (zip_with Z.add) g w.

(** The sum of a list of reports, starting from [g]. *)
Definition table_sum (g : table) (reports : list table) : table :=
  foldl table_add g reports.

(** ** Messages, effects and the controller's state *)

(** What the master sends to a worker. *)
Record rw_option := {
  o_namespace : jsval;
  o_set : jsval;
  o_keyRange : jsval * jsval;
  o_rops : float;
  o_wops : float;
  o_binSpec : jsval
}.

(** [aerospike.filter.range] and [aerospike.filter.equal] belong to the
    client library; their results are kept as constructors. *)
Inductive filter_spec :=
| FilterRange (bin min max : jsval)
| FilterEqual (bin value : jsval).

(** The [statement] of a query job: the object [stmt] of [queryWorkerJob],
    whose [filters] field may stay unset, or [argv.scanSpec] as it is. *)
Inductive statement :=
| Stmt (filters : option (list filter_spec))
| ScanStmt (spec : option (list jsval)).

Record query_options := {
  q_namespace : jsval;
  q_set : jsval;
  q_statement : statement
}.

Inductive out_msg :=
| MsgEnd
| MsgTrans
| MsgRun (o : rw_option)
| MsgQuery (o : query_options).

(** What a worker sends: [message[0]] is the tag, [message[1]] the body. *)
Inductive payload :=
| PUndefined
| PTable (t : table)
| PAlert (alert severity : jsval).

Record message := {
  tag : string;
  body : payload
}.

(** The lines [print_interval_stats] logs. *)
Inductive log_line :=
| LogReadWrite (r0 r1 r2 w0 w1 w2 : option Z)
| LogQuery (c0 c1 c2 : option Z)
| LogScan (c0 c1 c2 : option Z)
| LogWorkerExited (w : nat) (code : option Z).

(** The calls the master makes on its collaborators. *)
Inductive effect :=
| ArmTick
| ArmDuration (secs : Z)
| Fork (w : nat)
| Send (w : nat) (m : out_msg)
| StatsStart
| StatsStop
| StatsReportFinal
| StatsInterval (read write query scan : option (list Z))
| StatsIteration (op_stats : payload)
| HandleAlert (alert severity : jsval)
| Log (l : log_line)
| ProcessExit (code : Z).

(** The globals of the script, the [iteration] field of every forked
    worker, the keys of [cluster.workers], and the exit status once
    [process.exit] has run. *)
Record state := {
  online : Z;
  exited : Z;
  rwOnline : Z;
  queryOnline : Z;
  scanOnline : Z;
  interval_stats : table;
  counter : Z;
  iteration : gmap nat Z;
  cluster_workers : list nat;
  halted : option Z
}.

Definition init_state : state :=
  {| online := 0; exited := 0; rwOnline := 0; queryOnline := 0; scanOnline := 0;
     interval_stats := zero_table; counter := 0;
     iteration := ∅; cluster_workers := []; halted := None |}.

Definition set_online (v : Z) (s : state) : state :=
  {| online := v; exited := exited s; rwOnline := rwOnline s;
     queryOnline := queryOnline s; scanOnline := scanOnline s;
     interval_stats := interval_stats s; counter := counter s;
     iteration := iteration s; cluster_workers := cluster_workers s;
     halted := halted s |}.

Definition set_exited (v : Z) (s : state) : state :=
  {| online := online s; exited := v; rwOnline := rwOnline s;
     queryOnline := queryOnline s; scanOnline := scanOnline s;
     interval_stats := interval_stats s; counter := counter s;
     iteration := iteration s; cluster_workers := cluster_workers s;
     halted := halted s |}.

Definition set_rwOnline (v : Z) (s : state) : state :=
  {| online := online s; exited := exited s; rwOnline := v;
     queryOnline := queryOnline s; scanOnline := scanOnline s;
     interval_stats := interval_stats s; counter := counter s;
     iteration := iteration s; cluster_workers := cluster_workers s;
     halted := halted s |}.

Definition set_queryOnline (v : Z) (s : state) : state :=
  {| online := online s; exited := exited s; rwOnline := rwOnline s;
     queryOnline := v; scanOnline := scanOnline s;
     interval_stats := interval_stats s; counter := counter s;
     iteration := iteration s; cluster_workers := cluster_workers s;
     halted := halted s |}.

Definition set_scanOnline (v : Z) (s : state) : state :=
  {| online := online s; exited := exited s; rwOnline := rwOnline s;
     queryOnline := queryOnline s; scanOnline := v;
     interval_stats := interval_stats s; counter := counter s;
     iteration := iteration s; cluster_workers := cluster_workers s;
     halted := halted s |}.

Definition set_interval_stats (v : table) (s : state) : state :=
  {| online := online s; exited := exited s; rwOnline := rwOnline s;
     queryOnline := queryOnline s; scanOnline := scanOnline s;
     interval_stats := v; counter := counter s;
     iteration := iteration s; cluster_workers := cluster_workers s;
     halted := halted s |}.

Definition set_counter (v : Z) (s : state) : state :=
  {| online := online s; exited := exited s; rwOnline := rwOnline s;
     queryOnline := queryOnline s; scanOnline := scanOnline s;
     interval_stats := interval_stats s; counter := v;
     iteration := iteration s; cluster_workers := cluster_workers s;
     halted := halted s |}.

Definition set_iteration (v : gmap nat Z) (s : state) : state :=
  {| online := online s; exited := exited s; rwOnline := rwOnline s;
     queryOnline := queryOnline s; scanOnline := scanOnline s;
     interval_stats := interval_stats s; counter := counter s;
     iteration := v; cluster_workers := cluster_workers s;
     halted := halted s |}.

Definition set_cluster_workers (v : list nat) (s : state) : state :=
  {| online := online s; exited := exited s; rwOnline := rwOnline s;
     queryOnline := queryOnline s; scanOnline := scanOnline s;
     interval_stats := interval_stats s; counter := counter s;
     iteration := iteration s; cluster_workers := v;
     halted := halted s |}.

Definition set_halted (v : option Z) (s : state) : state :=
  {| online := online s; exited := exited s; rwOnline := rwOnline s;
     queryOnline := queryOnline s; scanOnline := scanOnline s;
     interval_stats := interval_stats s; counter := counter s;
     iteration := iteration s; cluster_workers := cluster_workers s;
     halted := v |}.

(** [worker.iteration]; every forked worker has one (line 110). *)
Definition iteration_of (s : state) (w : nat) : Z := iteration s !!! w.

(** What the environment delivers to the master. *)
Inductive event :=
| EvOnline (w : nat)
| EvMessage (w : nat) (m : message)
| EvTick
| EvDuration
| EvExit (w : nat) (code : option Z).

(** ** The master's functions and event listeners *)

Section Master.

Variable argv : config.

(** Lines 101-106. *)
Definition finalize : list effect :=
  StatsStop ::
  (if summary argv && (0 <? rwWorkers argv)%Z then [StatsReportFinal] else []).

(** [process.exit(code)]: the ['exit'] listener of lines 265-270 runs,
    then the process is gone. *)
Definition process_exit (code : Z) (s : state) : state * list effect :=
  (set_halted (Some code) s,
   (if (exited s =? online s)%Z then finalize else []) ++ [ProcessExit code]).

(** Lines 108-112; [cluster.fork] numbers the workers from 1 on. *)
Definition worker_spawn (id : nat) (s : state) : state * list effect :=
  (set_cluster_workers (cluster_workers s ++ [id])
     (set_iteration (<[id := 0%Z]> (iteration s)) s),
   [Fork id]).

(** Lines 114-116. *)
Definition worker_exit (w : nat) : list effect := [Send w MsgEnd].

(** Lines 118-122. *)
Definition worker_shutdown (s : state) : list effect :=
  flat_map worker_exit (cluster_workers s).

(** Lines 127-131. *)
Definition worker_probe (s : state) : list effect :=
  map (fun id => Send id MsgTrans) (cluster_workers s).

(** Lines 133-144. *)
Definition rw_job : rw_option :=
  {| o_namespace := namespace argv; o_set := set argv;
     o_keyRange := keyRange argv;
     o_rops := ROPS argv; o_wops := WOPS argv;
     o_binSpec := binSpec argv |}.

Definition rwWorkerJob (w : nat) (s : state) : state * list effect :=
  (set_iteration (<[w := (iteration_of s w + 1)%Z]> (iteration s)) s,
   [Send w (MsgRun rw_job)]).

(** Lines 150-156: the statement built from one query specification. *)
Definition query_statement (queryConfig : query_config) : statement :=
  if strict_eq_string (qtype queryConfig) "Range" then
    Stmt (Some [FilterRange (bin queryConfig) (min queryConfig) (max queryConfig)])
  else if strict_eq_string (qtype queryConfig) "Equal" then
    Stmt (Some [FilterEqual (bin queryConfig) (value queryConfig)])
  else Stmt None.

(** Lines 149-164; [None] when [argv.querySpec[id]] is [undefined] and
    reading its [qtype] throws. *)
Definition queryWorkerJob (w : nat) (id : Z) : option (list effect) :=
  qs ← querySpec argv;
  queryConfig ← (if (id <? 0)%Z then None else qs !! Z.to_nat id);
  Some [Send w (MsgQuery {| q_namespace := namespace argv; q_set := set argv;
                            q_statement := query_statement queryConfig |})].

(** Lines 166-173. *)
Definition scanWorkerJob (w : nat) : list effect :=
  [Send w (MsgQuery {| q_namespace := namespace argv; q_set := set argv;
                       q_statement := ScanStmt (scanSpec argv) |})].

(** Lines 199-213. *)
Definition print_interval_stats (t : table) : list effect :=
  (if (0 <? rwWorkers argv)%Z
   then [Log (LogReadWrite (cell t 0 0) (cell t 0 1) (cell t 0 2)
                           (cell t 1 0) (cell t 1 1) (cell t 1 2))]
   else []) ++
  (if (queryWorkers argv =? 0)%Z then []
   else [Log (LogQuery (cell t 2 0) (cell t 2 1) (cell t 2 2))]) ++
  (if (scanWorkers argv =? 0)%Z then []
   else [Log (LogScan (cell t 3 0) (cell t 3 1) (cell t 3 2))]).

(** [n % d === 0]; the remainder by zero is NaN, which is not 0. *)
Definition rem_is_zero (n d : Z) : bool :=
  if (d =? 0)%Z then false else (Z.rem n d =? 0)%Z.

(** Line 186: the test [++counter % argv.processes === 0], on the
    counter already incremented. *)
Definition flush_due (c : Z) : bool := rem_is_zero c (processes argv).

(** Lines 187-195: what a flush hands out. *)
Definition flush (t : table) : list effect :=
  StatsInterval (t !! 0%nat) (t !! 1%nat) (t !! 2%nat) (t !! 3%nat) ::
  (if silent argv then [] else print_interval_stats t).

(** Lines 180-197; [None] when the body is not a table the loops can
    read. *)
Definition worker_results_interval (w : nat) (interval_worker_stats : payload)
    (s : state) : option (state * list effect) :=
  match interval_worker_stats with
  | PTable t =>
      g ← fold_interval t (interval_stats s);
      let s1 := set_counter (counter s + 1)%Z (set_interval_stats g s) in
      Some (s1, if flush_due (counter s1) then flush (interval_stats s1) else [])
  | _ => None
  end.

(** Line 217: the condition under which a worker is driven again. *)
Definition continue (w : nat) (s : state) : bool :=
  match argv_iterations argv with
  | None => true
  | Some limit => (iteration_of s w <? limit)%Z || defined (time argv)
  end.

(** Lines 215-222. *)
Definition worker_results_iteration (w : nat) (op_stats : payload)
    (s : state) : state * list effect :=
  if continue w s then
    let '(s1, e) := rwWorkerJob w s in (s1, StatsIteration op_stats :: e)
  else (s, StatsIteration op_stats :: worker_exit w).

(** Lines 224-234; an alert whose body is [undefined] throws. *)
Definition worker_results (w : nat) (m : message) (s : state)
    : option (state * list effect) :=
  if String.eqb (tag m) "stats" then
    Some (worker_results_iteration w (body m) s)
  else if String.eqb (tag m) "alert" then
    match body m with
    | PAlert a sev => Some (s, [HandleAlert a sev])
    | PTable _ => Some (s, [HandleAlert JUndefined JUndefined])
    | PUndefined => None
    end
  else worker_results_interval w (body m) s.

(** Lines 257-259. *)
Definition reset_interval_stats (s : state) : state :=
  set_interval_stats zero_table s.

(** Lines 249-252: the one-second timer. *)
Definition on_tick (s : state) : state * list effect :=
  let s1 := reset_interval_stats s in (s1, worker_probe s1).

(** Lines 316-322: the duration timer, armed only when [argv.time] is
    set. *)
Definition on_duration (s : state) : state * list effect :=
  match time argv with
  | Some _ =>
      let s1 := reset_interval_stats s in
      (s1, worker_probe s1 ++ worker_shutdown s1)
  | None => (s, [])
  end.

(** Lines 280-292. *)
Definition on_online (w : nat) (s : state) : option (state * list effect) :=
  let s1 := set_online (online s + 1)%Z s in
  if (rwOnline s1 <? rwWorkers argv)%Z then
    Some (rwWorkerJob w (set_rwOnline (rwOnline s1 + 1)%Z s1))
  else if (queryOnline s1 <? queryWorkers argv)%Z then
    e ← queryWorkerJob w (queryOnline s1);
    Some (set_queryOnline (queryOnline s1 + 1)%Z s1, e)
  else if (scanOnline s1 <? scanWorkers argv)%Z then
    Some (set_scanOnline (scanOnline s1 + 1)%Z s1, scanWorkerJob w)
  else Some (s1, []).

(** [code !== 0]; a worker killed by a signal has the code [null]. *)
Definition nonzero (code : option Z) : bool :=
  match code with
  | Some c => negb (c =? 0)%Z
  | None => true
  end.

(** Lines 298-310; the cluster has dropped the worker from
    [cluster.workers] by the time the listener runs. *)
Definition on_exit (w : nat) (code : option Z) (s : state) : state * list effect :=
  let s0 := set_cluster_workers (filter (fun id => id ≠ w) (cluster_workers s)) s in
  if nonzero code then
    let '(s1, e) := process_exit 1 s0 in (s1, Log (LogWorkerExited w code) :: e)
  else
    let s1 := set_exited (exited s0 + 1)%Z s0 in
    if (exited s1 =? online s1)%Z then process_exit 0 s1 else (s1, []).

(** One turn of the event loop; nothing runs once the process has
    exited.  [None]: the listener threw. *)
Definition step (ev : event) (s : state) : option (state * list effect) :=
  match halted s with
  | Some _ => Some (s, [])
  | None =>
      match ev with
      | EvOnline w => on_online w s
      | EvMessage w m => worker_results w m s
      | EvTick => Some (on_tick s)
      | EvDuration => Some (on_duration s)
      | EvExit w code => Some (on_exit w code s)
      end
  end.

(** The effects of a sequence of events, in order. *)
Fixpoint run (evs : list event) (s : state) : option (state * list effect) :=
  match evs with
  | [] => Some (s, [])
  | ev :: evs' =>
      '(s1, e1) ← step ev s;
      '(s2, e2) ← run evs' s1;
      Some (s2, e1 ++ e2)
  end.

(** Lines 330-332. *)
Definition spawn_all (s : state) : state * list effect :=
  foldl (fun '(s1, e) p => let '(s2, e2) := worker_spawn (S p) s1 in (s2, e ++ e2))
        (s, []) (seq 0 (Z.to_nat (processes argv))).

(** The script from top to bottom: the master check of lines 59-62 (the
    ['exit'] listener is not installed yet), the timers, [stats.start] and
    the spawn loop. *)
Definition main (isMaster : bool) : state * list effect :=
  if negb isMaster then (set_halted (Some 0%Z) init_state, [ProcessExit 0])
  else
    let timers :=
      ArmTick :: match time argv with Some t => [ArmDuration t] | None => [] end in
    let '(s, e) := spawn_all init_state in
    (s, timers ++ StatsStart :: e).

End Master.

(** ** Configurations and states used as examples *)

(** A configuration with the given mix and nothing else set. *)
Definition mix_config (ops r w : float) : config :=
  {| processes := 1; operations := ops; reads := r; writes := w;
     namespace := JUndefined; set := JUndefined;
     keyRange := (JUndefined, JUndefined); binSpec := JUndefined;
     querySpec := None; scanSpec := None; time := None; iterations := None;
     silent := false; summary := false |}.

(** Query specifications of each kind, and one of a kind the script does
    not know. *)
Definition range_spec : query_config :=
  {| qtype := JString "Range"; bin := JString "age"; min := JNumber 10;
     max := JNumber 20; value := JUndefined |}.

Definition equal_spec : query_config :=
  {| qtype := JString "Equal"; bin := JString "name"; min := JUndefined;
     max := JUndefined; value := JString "bob" |}.

Definition other_spec : query_config :=
  {| qtype := JString "Prefix"; bin := JString "name"; min := JUndefined;
     max := JUndefined; value := JString "b" |}.

(** Four processes and the three query specifications. *)
Definition query_config_example : config :=
  {| processes := 4; operations := 1000; reads := 7; writes := 3;
     namespace := JString "test"; set := JString "demo";
     keyRange := (JNumber 0, JNumber 1000); binSpec := JUndefined;
     querySpec := Some [range_spec; equal_spec; other_spec];
     scanSpec := None; time := None; iterations := None;
     silent := false; summary := false |}.

(** A report with read counters only. *)
Definition read_report (c t e : Z) : table :=
  [[c; t; e]; [0; 0; 0]; [0; 0; 0]; [0; 0; 0]]%Z.

(** Two workers online, none exited. *)
Definition two_online : state := set_online 2 init_state.

(** ** Start-up *)

(** The globals that only the event listeners touch. *)
Definition same_globals (s s' : state) : Prop :=
  online s' = online s /\ exited s' = exited s /\
  rwOnline s' = rwOnline s /\ queryOnline s' = queryOnline s /\
  scanOnline s' = scanOnline s /\ interval_stats s' = interval_stats s /\
  counter s' = counter s /\ halted s' = halted s.

(** The claim of the specification, in its words: a negative number of
    read/write workers ends the process before any worker is forked. *)
Definition fails_fast (argv : config) : Prop :=
  (rwWorkers argv < 0)%Z ->
  is_Some (halted (main argv true).1) /\ forall w, Fork w ∉ (main argv true).2.

(** One process configured for two query specifications. *)
Definition negative_rw_config : config :=
  {| processes := 1; operations := 1000; reads := 7; writes := 3;
     namespace := JString "test"; set := JString "demo";
     keyRange := (JNumber 0, JNumber 1000); binSpec := JUndefined;
     querySpec := Some [range_spec; equal_spec];
     scanSpec := None; time := None; iterations := None;
     silent := false; summary := false |}.

(** ** Role assignment *)




Definition is_online (ev : event) : bool :=
  match ev with
  | EvOnline _ => true
  | _ => false
  end.

Definition count_online (evs : list event) : nat :=
  length (List.filter is_online evs).


(** Four processes for one query and one scan: two read/write workers. *)
Definition mixed_config : config :=
  {| processes := 4; operations := 1000; reads := 7; writes := 3;
     namespace := JString "test"; set := JString "demo";
     keyRange := (JNumber 0, JNumber 1000); binSpec := JUndefined;
     querySpec := Some [range_spec];
     scanSpec := Some [JString "scan"]; time := None; iterations := Some 3%Z;
     silent := false; summary := true |}.

(** ** Interval reports and the flush *)

(** An interval report: the answer to ['trans'].  Every tag other than
    ['stats'] and ['alert'] is handled the same way. *)
Definition interval_report (w : nat) (t : table) : event :=
  EvMessage w {| tag := "trans"; body := PTable t |}.

Definition is_interval_report (ev : event) : bool :=
  match ev with
  | EvMessage _ m => negb (String.eqb (tag m) "stats") && negb (String.eqb (tag m) "alert")
  | _ => false
  end.

(** The number of interval reports in a run. *)
Definition count_reports (evs : list event) : nat :=
  length (List.filter is_interval_report evs).

Definition is_flush (ef : effect) : bool :=
  match ef with
  | StatsInterval _ _ _ _ => true
  | _ => false
  end.





Definition plain_config (n : Z) : config :=
  {| processes := n; operations := 1000; reads := 7; writes := 3;
     namespace := JString "test"; set := JString "demo";
     keyRange := (JNumber 0, JNumber 1000); binSpec := JUndefined;
     querySpec := None; scanSpec := None; time := None; iterations := None;
     silent := false; summary := false |}.

(** ** The order of arrival *)




(** ** Jobs sent to one worker *)

(** The job an effect hands to worker [w], if it does. *)
Definition job_for (w : nat) (ef : effect) : option out_msg :=
  match ef with
  | Send w' (MsgRun o) => if (w =? w')%nat then Some (MsgRun o) else None
  | Send w' (MsgQuery o) => if (w =? w')%nat then Some (MsgQuery o) else None
  | _ => None
  end.

Definition jobs_to (w : nat) (e : list effect) : list out_msg := omap (job_for w) e.

(** The events that can make the master send worker [w] a job: its
    ['online'] event and its ['stats'] messages. *)
Definition redrives (w : nat) (ev : event) : bool :=
  match ev with
  | EvOnline w' => (w =? w')%nat
  | EvMessage w' m => (w =? w')%nat && String.eqb (tag m) "stats"
  | _ => false
  end.

Definition completion_report (w : nat) (op_stats : payload) : event :=
  EvMessage w {| tag := "stats"; body := op_stats |}.

(** The claim of the specification, in its words: a worker that was given
    a query or scan job is sent one job and no more, whatever happens. *)
Definition one_shot (argv : config) (evs : list event) (w : nat) : Prop :=
  forall s e,
    run argv evs (main argv true).1 = Some (s, e) ->
    (exists o, MsgQuery o ∈ jobs_to w e) ->
    length (jobs_to w e) = 1%nat.

(** One process, one query specification, no iteration limit. *)
Definition query_only_config : config :=
  {| processes := 1; operations := 1000; reads := 7; writes := 3;
     namespace := JString "test"; set := JString "demo";
     keyRange := (JNumber 0, JNumber 1000); binSpec := JUndefined;
     querySpec := Some [range_spec];
     scanSpec := None; time := None; iterations := None;
     silent := false; summary := false |}.

(** ** The iteration limit *)

(** Everything sent to worker [w]. *)
Definition sent_to (w : nat) (e : list effect) : list out_msg :=
  omap (fun ef => match ef with
                  | Send w' m => if (w =? w')%nat then Some m else None
                  | _ => None
                  end) e.

(** Whether worker [w] was sent a ['run'] job. *)
Definition got_run (w : nat) (e : list effect) : bool :=
  existsb (fun m => match m with MsgRun _ => true | _ => false end) (sent_to w e).

(** Modelled from the spec: the worker executor ([worker.js] is not among
    the sources).  A read/write worker answers every ['run'] job with one
    ['stats'] completion report and reports nothing more once it has not
    been given a new job.  [rw_session] runs the master against such a
    worker, from the arrival of the report for the job in flight; [None]
    when the fuel runs out. *)
Fixpoint rw_session (argv : config) (fuel : nat) (w : nat) (op_stats : payload)
    (s : state) : option (state * list effect) :=
  match fuel with
  | O => None
  | S fuel' =>
      '(s1, e1) ← step argv (completion_report w op_stats) s;
      if got_run w e1 then
        '(s2, e2) ← rw_session argv fuel' w op_stats s1;
        Some (s2, e1 ++ e2)
      else Some (s1, e1)
  end.

(** ** Counting along a run *)

(** The tables of the interval reports handled since the table was last
    reset: by the one-second timer, or by the duration timer when it is
    armed. *)
Definition since_tick (argv : config) (evs : list event) : list table :=
  foldl (fun acc ev =>
           match ev with
           | EvTick => []
           | EvDuration => if defined (time argv) then [] else acc
           | EvMessage _ m =>
               if is_interval_report ev
               then match body m with PTable t => acc ++ [t] | _ => acc end
               else acc
           | _ => acc
           end) [] evs.

Definition is_exit (ev : event) : bool :=
  match ev with
  | EvExit _ _ => true
  | _ => false
  end.

(** An exit with status 0. *)
Definition is_zero_exit (ev : event) : bool :=
  match ev with
  | EvExit _ code => negb (nonzero code)
  | _ => false
  end.

Definition count_zero_exits (evs : list event) : nat :=
  length (List.filter is_zero_exit evs).


Definition is_process_exit (ef : effect) : bool :=
  match ef with
  | ProcessExit _ => true
  | _ => false
  end.

Definition is_run (m : out_msg) : bool :=
  match m with
  | MsgRun _ => true
  | _ => false
  end.

(** The number of ['run'] jobs sent to worker [w]. *)
Definition count_runs (w : nat) (e : list effect) : nat :=
  length (List.filter is_run (jobs_to w e)).

(** The number of ['online'] events of worker [w]. *)
Definition count_online_of (w : nat) (evs : list event) : nat :=
  length (List.filter (fun ev => match ev with
                                 | EvOnline w' => (w =? w')%nat
                                 | _ => false
                                 end) evs).

(** Two read/write workers, a duration of ten seconds and an iteration
    limit, which the duration disables. *)
Definition duration_config : config :=
  {| processes := 2; operations := 1000; reads := 7; writes := 3;
     namespace := JString "test"; set := JString "demo";
     keyRange := (JNumber 0, JNumber 1000); binSpec := JUndefined;
     querySpec := None; scanSpec := None; time := Some 10%Z;
     iterations := Some 1%Z; silent := true; summary := true |}.

(** The number of records handed to the stats sink. *)
Definition count_flushes (e : list effect) : nat :=
  length (List.filter is_flush e).

(** * The UDF registration example ([examples/udf_register.js])

    The script parses its options, connects, registers a UDF module and
    waits for the registration to complete.  The client library calls back
    with an error object or [null]; the script's callbacks are modelled as
    the turns of a small state machine. *)

Module UdfRegister.

(** [v] used as a condition. *)
Definition truthy (v : jsval) : bool :=
  match v with
  | JUndefined => false
  | JNumber n => negb (n =? 0)%Z
  | JString s => negb (String.eqb s "")
  end.

(** The parsed command line: the options of lines 32-93 and the
    positional arguments [argv._]. *)
Record options := {
  help : bool;
  quiet : bool;
  host : jsval;
  port : jsval;
  timeout : jsval;
  log_level : jsval;
  log_file : jsval;
  user : jsval;
  password : jsval;
  iteration_limit : jsval;
  positional : list jsval
}.

(** Line 96: [argv._.shift()]. *)
Definition file (argv : options) : jsval :=
  match positional argv with
  | f :: _ => f
  | [] => JUndefined
  end.

(** The error object handed to a callback; [None] is [null]. *)
Record error := {
  code : Z;
  message : string
}.

(** Line 126: descriptor 2, or the log file opened for appending. *)
Inductive log_target :=
| Stderr
| Opened (path : jsval).

(** Lines 116-141; [modlua.userPath] is the directory of the script. *)
Record client_config := {
  c_host : jsval;
  c_port : jsval;
  c_log_level : jsval;
  c_log_file : log_target;
  c_timeout : jsval;
  c_user : jsval;
  c_password : jsval
}.

Inductive effect :=
| ShowHelp
| ConsoleError (line : string)
| ConsoleLog (registered : jsval)
| SetLimit (n : jsval)
| Connect (c : client_config)
| UdfRegister (f : jsval)
| UdfRegisterWait (f : jsval) (poll : Z)
| ProcessExit (status : Z).

(** Where the script stands: waiting for one of its three callbacks, done,
    or gone. *)
Inductive phase :=
| Connecting
| Registering
| Waiting
| Done
| Exited (status : Z).

Section Script.

Variable AEROSPIKE_OK : Z.
Variable argv : options.

Definition config : client_config :=
  {| c_host := host argv; c_port := port argv;
     c_log_level := log_level argv;
     c_log_file := if truthy (log_file argv) then Opened (log_file argv) else Stderr;
     c_timeout := timeout argv;
     c_user := user argv; c_password := password argv |}.

(** [err && err.code !== Status.AEROSPIKE_OK]. *)
Definition failed (err : option error) : bool :=
  match err with
  | Some e => negb (code e =? AEROSPIKE_OK)%Z
  | None => false
  end.

(** Lines 163-170. *)
Definition isError (err : option error) : bool * list effect :=
  match err with
  | Some e =>
      if negb (code e =? AEROSPIKE_OK)%Z
      then (true, [ConsoleError ("Error: " ++ message e)])
      else (false, [])
  | None => (false, [])
  end.

(** Lines 95-110 and 172: the script up to the call of [connect]. *)
Definition main : phase * list effect :=
  if help argv then (Exited 0, [ShowHelp; ProcessExit 0])
  else if negb (truthy (file argv)) then
    (Exited 1, [ConsoleError "Error: Please provide a file to register.";
                ConsoleError ""; ShowHelp; ProcessExit 1])
  else (Connecting, [SetLimit (iteration_limit argv); Connect config]).

(** Lines 172-178: the callback of [connect]. *)
Definition on_connect (err : option error) : phase * list effect :=
  if failed err then (Exited 1, [ProcessExit 1])
  else (Registering, [UdfRegister (file argv)]).

(** Lines 148-160: the callback of [udfRegister]. *)
Definition on_register (err : option error) : phase * list effect :=
  let '(bad, logged) := isError err in
  if bad then (Exited 1, logged ++ [ProcessExit 1])
  else (Waiting, logged ++ [UdfRegisterWait (file argv) 1000]).

(** Lines 152-158: the callback of [udfRegisterWait]. *)
Definition on_wait (err : option error) : phase * list effect :=
  let '(bad, logged) := isError err in
  if bad then (Exited 1, logged ++ [ProcessExit 1])
  else (Done, logged ++ if quiet argv then [] else [ConsoleLog (file argv)]).

(** The callback the script is waiting for; none once it is done or has
    exited. *)
Definition callback (ph : phase) (err : option error) : phase * list effect :=
  match ph with
  | Connecting => on_connect err
  | Registering => on_register err
  | Waiting => on_wait err
  | Done | Exited _ => (ph, [])
  end.

(** One callback: the effects so far and those of the callback. *)
Definition turn (st : phase * list effect) (err : option error)
    : phase * list effect :=
  ((callback st.1 err).1, st.2 ++ (callback st.1 err).2).

(** The script against the callbacks' arguments, in order. *)
Definition script (errs : list (option error)) : phase * list effect :=
  foldl turn main errs.

End Script.

(** The calls made on the client. *)
Definition client_calls (e : list effect) : list effect :=
  List.filter (fun ef => match ef with
                         | Connect _ | UdfRegister _ | UdfRegisterWait _ _ => true
                         | _ => false
                         end) e.

Definition console_errors (e : list effect) : list string :=
  omap (fun ef => match ef with ConsoleError l => Some l | _ => None end) e.

Definition logs_success (e : list effect) : bool :=
  existsb (fun ef => match ef with ConsoleLog _ => true | _ => false end) e.

(** The number of callbacks at the head of the list that report success. *)
Fixpoint leading_ok (OK : Z) (errs : list (option error)) : nat :=
  match errs with
  | err :: errs' => if failed OK err then 0%nat else S (leading_ok OK errs')
  | [] => 0%nat
  end.

Definition example_options (fs : list jsval) : options :=
  {| help := false; quiet := false; host := JString "127.0.0.1";
     port := JNumber 3000; timeout := JNumber 10; log_level := JNumber 3;
     log_file := JUndefined; user := JUndefined; password := JUndefined;
     iteration_limit := JNumber 1; positional := fs |}.

End UdfRegister.

(** * Properties *)

(** ** Facts about the counters table *)

Lemma row_shape (r : list Z) :
  (length r =? STATS)%nat = true -> exists a b c, r = [a; b; c].
Proof.
  destruct r as [|a [|b [|c [|d r]]]]; simpl; try discriminate.
  intros _. by exists a, b, c.
Qed.

Lemma wf_table_shape (t : table) :
  wf_table t = true ->
  exists r0 r1 r2 r3 : Z * Z * Z,
    t = map (fun '(a, b, c) => [a; b; c]) [r0; r1; r2; r3].
Proof.
  unfold wf_table. intros H. apply andb_prop in H as [Hlen Hrows].
  destruct t as [|x0 [|x1 [|x2 [|x3 [|x4 t]]]]]; simpl in Hlen; try discriminate.
  simpl in Hrows.
  repeat match goal with
         | H : _ && _ = true |- _ => apply andb_prop in H as [? ?]
         end.
  destruct (row_shape x0) as (a0 & b0 & c0 & ->); [done|].
  destruct (row_shape x1) as (a1 & b1 & c1 & ->); [done|].
  destruct (row_shape x2) as (a2 & b2 & c2 & ->); [done|].
  destruct (row_shape x3) as (a3 & b3 & c3 & ->); [done|].
  by exists (a0, b0, c0), (a1, b1, c1), (a2, b2, c2), (a3, b3, c3).
Qed.

Ltac table_cells t H :=
  let r0 := fresh "r" in let r1 := fresh "r" in
  let r2 := fresh "r" in let r3 := fresh "r" in
  destruct (wf_table_shape t H) as (r0 & r1 & r2 & r3 & ->);
  destruct r0 as [[? ?] ?], r1 as [[? ?] ?], r2 as [[? ?] ?], r3 as [[? ?] ?].

(** On tables of the right shape the two loops never fail and compute the
    cell-by-cell sum. *)
Lemma fold_interval_wf (w g : table) :
  wf_table g = true -> wf_table w = true ->
  fold_interval w g = Some (table_add g w).
Proof.
  intros Hg Hw. table_cells g Hg. table_cells w Hw. reflexivity.
Qed.

Lemma wf_table_add (g w : table) :
  wf_table g = true -> wf_table w = true -> wf_table (table_add g w) = true.
Proof.
  intros Hg Hw. table_cells g Hg. table_cells w Hw. reflexivity.
Qed.







Lemma wf_table_sum (g : table) (reports : list table) :
  wf_table g = true -> Forall (fun t => wf_table t = true) reports ->
  wf_table (table_sum g reports) = true.
Proof.
  unfold table_sum. intros Hg Hl. revert g Hg.
  induction Hl as [|t l Ht _ IH]; intros g Hg; simpl; [done|].
  apply IH. by apply wf_table_add.
Qed.

Lemma for_each_inv {S : Type} (P : S -> Prop) (body : nat -> S -> option S) :
  (forall k s s', body k s = Some s' -> P s -> P s') ->
  forall idx s s', for_each idx body s = Some s' -> P s -> P s'.
Proof.
  intros Hbody. induction idx as [|k idx IH]; intros s s' Hrun Hs; simpl in Hrun.
  - by inversion Hrun; subst.
  - destruct (body k s) as [s1|] eqn:Hk; [|discriminate].
    eapply IH; [exact Hrun|]. by eapply Hbody.
Qed.

Lemma wf_set_cell (t : table) (i j : nat) (v : Z) :
  wf_table t = true -> wf_table (set_cell t i j v) = true.
Proof.
  intros Ht. table_cells t Ht.
  destruct i as [|[|[|[|i]]]], j as [|[|[|j]]]; reflexivity.
Qed.

(** Whatever the worker sent, a fold that goes through keeps the shape of
    the global table. *)
Lemma fold_interval_shape (w g g' : table) :
  fold_interval w g = Some g' -> wf_table g = true -> wf_table g' = true.
Proof.
  unfold fold_interval.
  apply (for_each_inv (fun t => wf_table t = true)).
  intros i t t' Hrow. revert Hrow.
  apply (for_each_inv (fun t => wf_table t = true)).
  clear. intros j t t'. unfold add_cell.
  destruct (cell t i j) as [a|]; simpl; [|discriminate].
  destruct (cell w i j) as [b|]; simpl; [|discriminate].
  intros [= <-]. apply wf_set_cell.
Qed.

(** ** The operation mix *)

(** C6. With [operations = 1000], [reads = 7] and [writes = 3] the counts
    sent with every read/write job are [rops = 700] and [wops = 300]; and
    whenever [ROPS + WOPS] falls short of [operations], the whole difference
    is added to the read count while the write count stays as computed. *)
Theorem operation_mix (argv : config) :
  (operations argv = 1000%float -> reads argv = 7%float -> writes argv = 3%float ->
   o_rops (rw_job argv) = 700%float /\ o_wops (rw_job argv) = 300%float) /\
  (PrimFloat.ltb (ROPS0 argv + WOPS argv) (operations argv) = true ->
   o_rops (rw_job argv) =
     (ROPS0 argv + (operations argv - (ROPS0 argv + WOPS argv)))%float /\
   o_wops (rw_job argv) = (FOPS argv * writes argv)%float).
Proof.
  split.
  - intros Ho Hr Hw. simpl.
    unfold ROPS, shortfall, DOPS, ROPS0, WOPS, FOPS. rewrite Ho, Hr, Hw.
    split; reflexivity.
  - intros Hlt. simpl. unfold ROPS, shortfall, DOPS. rewrite Hlt. done.
Qed.

Lemma operation_mix_witness :
  (o_rops (rw_job (mix_config 1000 7 3)) = 700%float /\
   o_wops (rw_job (mix_config 1000 7 3)) = 300%float) /\
  (PrimFloat.ltb (ROPS0 (mix_config 1000 1 5) + WOPS (mix_config 1000 1 5))
                 (operations (mix_config 1000 1 5)) = true /\
   o_rops (rw_job (mix_config 1000 1 5)) =
     (ROPS0 (mix_config 1000 1 5) +
      (1000 - (ROPS0 (mix_config 1000 1 5) + WOPS (mix_config 1000 1 5))))%float).
Proof.
  split.
  - apply (proj1 (operation_mix (mix_config 1000 7 3))); reflexivity.
  - split; [reflexivity|].
    apply (proj2 (operation_mix (mix_config 1000 1 5))). reflexivity.
Defined.

(** ** Query jobs *)

(** C8. The job built for a query worker carries one range filter
    (bin, min, max) when the specification's [qtype] is ['Range'], one
    equality filter (bin, value) when it is ['Equal'], and a statement
    without filters for every other [qtype]. *)
Theorem query_job_filter (argv : config) (w : nat) (id : Z)
    (qs : list query_config) (queryConfig : query_config) :
  querySpec argv = Some qs -> (0 <= id)%Z ->
  qs !! Z.to_nat id = Some queryConfig ->
  exists stmt,
    queryWorkerJob argv w id =
      Some [Send w (MsgQuery {| q_namespace := namespace argv;
                                q_set := set argv; q_statement := stmt |})] /\
    (qtype queryConfig = JString "Range" ->
     stmt = Stmt (Some [FilterRange (bin queryConfig) (min queryConfig)
                                    (max queryConfig)])) /\
    (qtype queryConfig = JString "Equal" ->
     stmt = Stmt (Some [FilterEqual (bin queryConfig) (value queryConfig)])) /\
    (qtype queryConfig <> JString "Range" ->
     qtype queryConfig <> JString "Equal" -> stmt = Stmt None).
Proof.
  intros Hqs Hid Hlook. exists (query_statement queryConfig).
  split; [|split; [|split]].
  - unfold queryWorkerJob. rewrite Hqs. simpl.
    destruct (id <? 0)%Z eqn:Hneg; [apply Z.ltb_lt in Hneg; lia|].
    by rewrite Hlook.
  - intros Hq. unfold query_statement. by rewrite Hq.
  - intros Hq. unfold query_statement. by rewrite Hq.
  - intros Hr He. unfold query_statement, strict_eq_string.
    destruct (qtype queryConfig) as [|n|str]; try done.
    destruct (String.eqb str "Range") eqn:E1.
    { apply String.eqb_eq in E1. by subst. }
    destruct (String.eqb str "Equal") eqn:E2.
    { apply String.eqb_eq in E2. by subst. }
    done.
Qed.

Lemma query_job_filter_witness :
  queryWorkerJob query_config_example 7 2 =
    Some [Send 7 (MsgQuery {| q_namespace := JString "test";
                              q_set := JString "demo";
                              q_statement := Stmt None |})].
Proof.
  destruct (query_job_filter query_config_example 7 2
              [range_spec; equal_spec; other_spec] other_spec)
    as (stmt & Hjob & _ & _ & Hother); [reflexivity | lia | reflexivity |].
  rewrite Hjob, Hother; [reflexivity | discriminate | discriminate].
Defined.

(** ** The message dispatcher *)

(** C10. A message whose tag is neither ['stats'] nor ['alert'], whatever
    the tag is, is handled as an interval report: the dispatcher hands its
    body to [worker_results_interval], and a body that is a counters table
    is added into the global table and counted. *)
Theorem unknown_tag_is_interval (argv : config) (w : nat) (m : message)
    (s : state) :
  tag m <> "stats" -> tag m <> "alert" ->
  worker_results argv w m s = worker_results_interval argv w (body m) s /\
  (forall t, body m = PTable t -> wf_table t = true ->
             wf_table (interval_stats s) = true ->
     exists s' e, worker_results argv w m s = Some (s', e) /\
                  interval_stats s' = table_add (interval_stats s) t /\
                  counter s' = (counter s + 1)%Z).
Proof.
  intros Hs Ha.
  assert (Hdisp : worker_results argv w m s =
                  worker_results_interval argv w (body m) s).
  { unfold worker_results.
    apply String.eqb_neq in Hs. apply String.eqb_neq in Ha.
    by rewrite Hs, Ha. }
  split; [exact Hdisp|].
  intros t Hbody Ht Hg. rewrite Hdisp, Hbody. unfold worker_results_interval.
  rewrite (fold_interval_wf t (interval_stats s) Hg Ht). simpl.
  eexists _, _. split; [reflexivity|]. by simpl.
Qed.

Lemma unknown_tag_is_interval_witness :
  exists s' e,
    worker_results query_config_example 1
      {| tag := "bogus"; body := PTable (read_report 10 0 0) |} init_state
      = Some (s', e) /\
    interval_stats s' = read_report 10 0 0 /\ counter s' = 1%Z.
Proof.
  destruct (unknown_tag_is_interval query_config_example 1
              {| tag := "bogus"; body := PTable (read_report 10 0 0) |}
              init_state) as [_ H]; [discriminate | discriminate |].
  destruct (H (read_report 10 0 0)) as (s' & e & Hrun & Htab & Hc);
    [reflexivity | reflexivity | reflexivity |].
  exists s', e. split; [exact Hrun|]. split; [exact Htab | exact Hc].
Defined.

(** ** Exit status *)

Lemma exits_pending (argv : config) (ws : list nat) (s : state) :
  halted s = None ->
  (exited s + Z.of_nat (length ws) < online s)%Z ->
  exists s', run argv (map (fun w => EvExit w (Some 0%Z)) ws) s = Some (s', []) /\
             halted s' = None /\ online s' = online s /\
             exited s' = (exited s + Z.of_nat (length ws))%Z.
Proof.
  revert s. induction ws as [|w ws IH]; intros s Hh Hlt.
  - exists s. simpl. repeat split; [done | lia].
  - simpl. unfold step. rewrite Hh. unfold on_exit. simpl.
    destruct (exited s + 1 =? online s)%Z eqn:E.
    { apply Z.eqb_eq in E. simpl in Hlt. lia. }
    simpl. edestruct IH as (s' & Hrun & Hh' & Ho & He); [| |rewrite Hrun; simpl].
    + done.
    + simpl. simpl in Hlt. lia.
    + exists s'. repeat split; try done. simpl in *. lia.
Qed.

Lemma last_exit (argv : config) (w : nat) (s : state) :
  halted s = None -> (exited s + 1)%Z = online s ->
  exists s', step argv (EvExit w (Some 0%Z)) s =
               Some (s', finalize argv ++ [ProcessExit 0]) /\
             halted s' = Some 0%Z.
Proof.
  intros Hh He. unfold step. rewrite Hh. unfold on_exit. simpl.
  assert (E : (exited s + 1 =? online s)%Z = true) by by apply Z.eqb_eq.
  rewrite E. unfold process_exit. simpl. rewrite E.
  eexists. split; [reflexivity|]. done.
Qed.

Lemma run_app (argv : config) (evs1 evs2 : list event) (s s1 s2 : state)
    (e1 e2 : list effect) :
  run argv evs1 s = Some (s1, e1) -> run argv evs2 s1 = Some (s2, e2) ->
  run argv (evs1 ++ evs2) s = Some (s2, e1 ++ e2).
Proof.
  revert s e1. induction evs1 as [|ev evs1 IH]; intros s e1 H1 H2; simpl in *.
  - by inversion H1; subst.
  - destruct (step argv ev s) as [[sa ea]|]; simpl in *; [|discriminate].
    destruct (run argv evs1 sa) as [[sb eb]|] eqn:Hb; simpl in *; [|discriminate].
    inversion H1; subst. rewrite (IH _ _ Hb H2). simpl.
    by rewrite app_assoc.
Qed.

(** C3. A worker that exits with a non-zero status (or is killed by a
    signal) makes the master exit with status 1 in the same turn, without
    sending anything to any worker; and when the workers that are online
    exit with status 0 one after the other, the master keeps running until
    the last of them has exited and then exits with status 0. *)
Theorem exit_status (argv : config) (s : state) :
  halted s = None ->
  (forall w code, nonzero code = true ->
     exists s', step argv (EvExit w code) s =
                  Some (s', Log (LogWorkerExited w code) ::
                            (if (exited s =? online s)%Z then finalize argv else [])
                            ++ [ProcessExit 1]) /\
                halted s' = Some 1%Z) /\
  (forall ws w, (exited s + Z.of_nat (length (ws ++ [w])))%Z = online s ->
     (exists s1, run argv (map (fun w => EvExit w (Some 0%Z)) ws) s = Some (s1, []) /\
                 halted s1 = None) /\
     (exists s2, run argv (map (fun w => EvExit w (Some 0%Z)) (ws ++ [w])) s =
                   Some (s2, finalize argv ++ [ProcessExit 0]) /\
                 halted s2 = Some 0%Z)).
Proof.
  intros Hh. split.
  - intros w code Hc. unfold step. rewrite Hh. unfold on_exit. rewrite Hc.
    unfold process_exit. simpl. eexists. split; [reflexivity|]. done.
  - intros ws w Hlen. rewrite length_app in Hlen. simpl in Hlen.
    destruct (exits_pending argv ws s Hh) as (s1 & Hrun & Hh1 & Ho1 & He1); [lia|].
    split; [by exists s1|].
    destruct (last_exit argv w s1 Hh1) as (s2 & Hstep & Hh2); [lia|].
    exists s2. split; [|done].
    rewrite map_app.
    change (finalize argv ++ [ProcessExit 0])
      with ([] ++ (finalize argv ++ [ProcessExit 0])).
    eapply run_app; [exact Hrun|]. simpl. rewrite Hstep. simpl.
    by rewrite app_nil_r.
Qed.

Lemma exit_status_witness :
  (exists s', step query_config_example (EvExit 1 (Some 3%Z)) two_online =
                Some (s', [Log (LogWorkerExited 1 (Some 3%Z)); ProcessExit 1]) /\
              halted s' = Some 1%Z) /\
  (exists s2, run query_config_example [EvExit 1 (Some 0%Z); EvExit 2 (Some 0%Z)]
                two_online =
                Some (s2, finalize query_config_example ++ [ProcessExit 0]) /\
              halted s2 = Some 0%Z).
Proof.
  destruct (exit_status query_config_example two_online) as [Hbad Hgood];
    [reflexivity|].
  split.
  - exact (Hbad 1%nat (Some 3%Z) eq_refl).
  - exact (proj2 (Hgood [1%nat] 2%nat eq_refl)).
Defined.

(** ** Start-up *)

Lemma spawn_loop (ps : list nat) (s : state) (e : list effect) :
  exists s',
    foldl (fun '(s1, e1) p => let '(s2, e2) := worker_spawn (S p) s1 in (s2, e1 ++ e2))
          (s, e) ps = (s', e ++ map (fun p => Fork (S p)) ps) /\
    same_globals s s' /\
    cluster_workers s' = cluster_workers s ++ map S ps.
Proof.
  revert s e. induction ps as [|p ps IH]; intros s e; simpl.
  - exists s. rewrite !app_nil_r. by repeat split.
  - destruct (IH (set_cluster_workers (cluster_workers s ++ [S p])
                    (set_iteration (<[S p := 0%Z]> (iteration s)) s))
                 (e ++ [Fork (S p)])) as (s' & Hrun & Hsame & Hw).
    simpl in Hrun. exists s'. rewrite Hrun. split; [by rewrite <- app_assoc|].
    split; [exact Hsame|]. rewrite Hw. simpl. by rewrite <- app_assoc.
Qed.

Lemma main_spec (argv : config) :
  exists s,
    main argv true =
      (s, ArmTick :: match time argv with Some t => [ArmDuration t] | None => [] end
          ++ StatsStart :: map Fork (seq 1 (Z.to_nat (processes argv)))) /\
    same_globals init_state s /\
    cluster_workers s = seq 1 (Z.to_nat (processes argv)).
Proof.
  unfold main, spawn_all.
  destruct (spawn_loop (seq 0 (Z.to_nat (processes argv))) init_state [])
    as (s & Hrun & Hsame & Hw).
  exists s. rewrite Hrun. simpl.
  rewrite Hw. simpl.
  rewrite <- (List.seq_shift (Z.to_nat (processes argv)) 0).
  rewrite List.map_map. split; [reflexivity|]. split; [exact Hsame | reflexivity].
Qed.

(** With [rwWorkers = -1] the script keeps running and forks its worker. *)
Lemma negative_rw_still_spawns :
  rwWorkers negative_rw_config = (-1)%Z /\
  halted (main negative_rw_config true).1 = None /\
  (main negative_rw_config true).2 = [ArmTick; StatsStart; Fork 1] /\
  ~ fails_fast negative_rw_config.
Proof.
  split; [reflexivity|]. split; [reflexivity|]. split; [reflexivity|].
  intros H. destruct H as [[code Hcode] _]; [reflexivity|].
  vm_compute in Hcode. discriminate.
Qed.

(** C2, as the script has it. The script never tests [rwWorkers]: for
    every configuration, with [rwWorkers] negative or not, start-up leaves
    the process running and forks [argv.processes] workers (none when that
    number is not positive). *)
Theorem startup_spawns_all (argv : config) :
  halted (main argv true).1 = None /\
  (main argv true).2 =
    ArmTick :: match time argv with Some t => [ArmDuration t] | None => [] end
    ++ StatsStart :: map Fork (seq 1 (Z.to_nat (processes argv))).
Proof.
  destruct (main_spec argv) as (s & -> & Hsame & _). simpl.
  split; [|done]. by destruct Hsame as (_ & _ & _ & _ & _ & _ & _ & ->).
Qed.

(** ** Facts about the event loop *)

Lemma step_halted (argv : config) (ev : event) (s : state) (c : Z) :
  halted s = Some c -> step argv ev s = Some (s, []).
Proof. intros H. unfold step. by rewrite H. Qed.

Lemma run_halted (argv : config) (evs : list event) (s : state) (c : Z) :
  halted s = Some c -> run argv evs s = Some (s, []).
Proof.
  intros H. induction evs as [|ev evs IH]; simpl; [done|].
  rewrite (step_halted argv ev s c H). simpl. by rewrite IH.
Qed.

(** A run that ends with the process alive started with it alive. *)
Lemma run_alive (argv : config) (evs : list event) (s s' : state)
    (e : list effect) :
  run argv evs s = Some (s', e) -> halted s' = None -> halted s = None.
Proof.
  intros Hrun Hh. destruct (halted s) as [c|] eqn:Hc; [|done].
  rewrite (run_halted argv evs s c Hc) in Hrun. inversion Hrun; subst.
  congruence.
Qed.

Ltac unfold_handlers :=
  unfold step, worker_results, worker_results_interval,
    worker_results_iteration, rwWorkerJob, on_tick, on_duration, on_exit,
    process_exit, reset_interval_stats in *.


(** ** Role assignment *)







(** ** Interval reports and the flush *)


Lemma step_wf (argv : config) (ev : event) (s s' : state) (e : list effect) :
  step argv ev s = Some (s', e) ->
  wf_table (interval_stats s) = true -> wf_table (interval_stats s') = true.
Proof.
  intros Hstep Hwf. unfold_handlers.
  destruct (halted s); [by inversion Hstep; subst|].
  destruct ev as [w|w m| | |w code].
  - unfold on_online, rwWorkerJob in Hstep.
    repeat case_match; simplify_option_eq; done.
  - repeat case_match; simplify_option_eq; try done.
    by eapply fold_interval_shape.
  - by inversion Hstep; subst.
  - repeat case_match; simplify_eq/=; done.
  - repeat case_match; simplify_eq/=; done.
Qed.

Lemma run_wf (argv : config) (evs : list event) :
  forall (s s' : state) (e : list effect),
    run argv evs s = Some (s', e) ->
    wf_table (interval_stats s) = true -> wf_table (interval_stats s') = true.
Proof.
  induction evs as [|ev evs IH]; intros s s' e Hrun Hwf; simpl in Hrun.
  - by inversion Hrun; subst.
  - destruct (step argv ev s) as [[s1 e1]|] eqn:Hstep; simpl in Hrun; [|discriminate].
    destruct (run argv evs s1) as [[s2 e2]|] eqn:Hrest; simpl in Hrun; [|discriminate].
    inversion Hrun; subst. eapply IH; [exact Hrest|]. by eapply step_wf.
Qed.

(** [counter] counts the interval reports. *)
Lemma step_counter (argv : config) (ev : event) (s s' : state) (e : list effect) :
  step argv ev s = Some (s', e) -> halted s = None ->
  counter s' = (counter s + if is_interval_report ev then 1 else 0)%Z.
Proof.
  intros Hstep Hh. unfold_handlers. rewrite Hh in Hstep.
  destruct ev as [w|w m| | |w code]; simpl.
  - unfold on_online, rwWorkerJob in Hstep.
    repeat case_match; simplify_option_eq; lia.
  - repeat case_match; simplify_option_eq; lia.
  - inversion Hstep; subst. simpl. lia.
  - repeat case_match; simplify_eq/=; lia.
  - repeat case_match; simplify_eq/=; lia.
Qed.






(** ** The order of arrival *)




(** ** Jobs sent to one worker *)

(** A query worker that sends a completion report is sent a read/write
    job. *)
Lemma query_worker_redriven :
  (exists s e o,
     run query_only_config
       [EvOnline 1; completion_report 1 (PTable (read_report 5 0 0))]
       (main query_only_config true).1 = Some (s, e) /\
     jobs_to 1 e = [MsgQuery o; MsgRun (rw_job query_only_config)]) /\
  ~ one_shot query_only_config
      [EvOnline 1; completion_report 1 (PTable (read_report 5 0 0))] 1.
Proof.
  split.
  { eexists _, _, _. split; [vm_compute; reflexivity|]. vm_compute. reflexivity. }
  intros H. unfold one_shot in H.
  opose proof* H as Hone; [vm_compute; reflexivity | |].
  - eexists. vm_compute. apply list_elem_of_here.
  - vm_compute in Hone. discriminate.
Qed.

Lemma jobs_to_app (w : nat) (e1 e2 : list effect) :
  jobs_to w (e1 ++ e2) = jobs_to w e1 ++ jobs_to w e2.
Proof. apply omap_app. Qed.

Lemma jobs_to_other (w w' : nat) (m : out_msg) :
  w <> w' -> jobs_to w [Send w' m] = [].
Proof.
  intros Hne. apply Nat.eqb_neq in Hne. unfold jobs_to. simpl.
  destruct m; simpl; by rewrite ?Hne.
Qed.

Lemma jobs_to_probe (w : nat) (s : state) : jobs_to w (worker_probe s) = [].
Proof.
  unfold worker_probe. induction (cluster_workers s) as [|id ids IH]; [done|].
  exact IH.
Qed.

Lemma jobs_to_shutdown (w : nat) (s : state) : jobs_to w (worker_shutdown s) = [].
Proof.
  unfold worker_shutdown. induction (cluster_workers s) as [|id ids IH]; [done|].
  exact IH.
Qed.

Lemma jobs_to_flush (argv : config) (w : nat) (t : table) :
  jobs_to w (flush argv t) = [].
Proof.
  unfold flush, print_interval_stats.
  destruct (silent argv); [done|]. simpl.
  by repeat case_match.
Qed.

Lemma jobs_to_finalize (argv : config) (w : nat) : jobs_to w (finalize argv) = [].
Proof. unfold finalize. by case_match. Qed.

(** An event that is neither the worker's ['online'] event nor one of its
    ['stats'] messages sends it no job. *)
Lemma step_no_job (argv : config) (w : nat) (ev : event) (s s' : state)
    (e : list effect) :
  step argv ev s = Some (s', e) -> redrives w ev = false -> jobs_to w e = [].
Proof.
  intros Hstep Hev. unfold step in Hstep.
  destruct (halted s); [by inversion Hstep; subst|].
  destruct ev as [w'|w' m| | |w' code]; simpl in Hev.
  - unfold on_online, rwWorkerJob, queryWorkerJob, scanWorkerJob in Hstep.
    repeat case_match; simplify_option_eq; try done;
      unfold jobs_to; simpl; by rewrite ?Hev.
  - unfold worker_results, worker_results_iteration, worker_results_interval,
      rwWorkerJob, worker_exit in Hstep.
    destruct (String.eqb (tag m) "stats") eqn:Hst.
    + rewrite andb_true_r in Hev.
      repeat case_match; simplify_eq; unfold jobs_to; simpl; by rewrite ?Hev.
    + repeat case_match; simplify_option_eq; try done.
      case_match; [apply jobs_to_flush | done].
  - inversion Hstep; subst. apply jobs_to_probe.
  - unfold on_duration in Hstep. case_match; simplify_eq/=; [|done].
    rewrite jobs_to_app. by rewrite jobs_to_probe, jobs_to_shutdown.
  - unfold on_exit, process_exit in Hstep.
    repeat case_match; simplify_eq/=; try done;
      rewrite ?jobs_to_app; by repeat case_match.
Qed.

Lemma run_no_job (argv : config) (w : nat) (evs : list event) :
  forall (s s' : state) (e : list effect),
    run argv evs s = Some (s', e) ->
    Forall (fun ev => redrives w ev = false) evs -> jobs_to w e = [].
Proof.
  induction evs as [|ev evs IH]; intros s s' e Hrun Hall; simpl in Hrun.
  - by inversion Hrun; subst.
  - destruct (step argv ev s) as [[s1 e1]|] eqn:Hstep; simpl in Hrun; [|discriminate].
    destruct (run argv evs s1) as [[s2 e2]|] eqn:Hrest; simpl in Hrun; [|discriminate].
    inversion Hrun; subst. inversion Hall as [|? ? Hev Hrest']; subst.
    by rewrite jobs_to_app, (step_no_job argv w _ _ _ _ Hstep Hev),
      (IH _ _ _ Hrest Hrest').
Qed.

(** C7, as the script has it. A worker that comes online when the
    read/write slots are taken and a query or scan slot is free is sent one
    ['query'] job, and no other job as long as it sends no ['stats'] message:
    timer ticks, interval reports, alerts, exits and the messages of other
    workers never make the master send it one.  (A ['stats'] message is
    answered by [worker_results_iteration], which does not look at the
    role.) *)
Theorem one_shot_without_stats (argv : config) (w : nat) (s s1 s2 : state)
    (job e : list effect) (evs : list event) :
  halted s = None ->
  (rwWorkers argv <= rwOnline s)%Z ->
  (queryOnline s < queryWorkers argv \/ scanOnline s < scanWorkers argv)%Z ->
  step argv (EvOnline w) s = Some (s1, job) ->
  run argv evs s1 = Some (s2, e) ->
  Forall (fun ev => redrives w ev = false) evs ->
  exists o, job = [Send w (MsgQuery o)] /\ jobs_to w (job ++ e) = [MsgQuery o].
Proof.
  intros Hh Hrw Hslot Hstep Hrun Hall.
  rewrite jobs_to_app, (run_no_job argv w evs s1 s2 e Hrun Hall), app_nil_r.
  unfold step in Hstep. rewrite Hh in Hstep.
  unfold on_online, queryWorkerJob, scanWorkerJob in Hstep. simpl in Hstep.
  assert (E1 : (rwOnline s <? rwWorkers argv)%Z = false) by (apply Z.ltb_ge; lia).
  rewrite E1 in Hstep.
  destruct (queryOnline s <? queryWorkers argv)%Z eqn:E2.
  - simplify_option_eq. eexists. split; [reflexivity|].
    unfold jobs_to. simpl. by rewrite Nat.eqb_refl.
  - apply Z.ltb_ge in E2.
    assert (E3 : (scanOnline s <? scanWorkers argv)%Z = true)
      by (apply Z.ltb_lt; lia).
    rewrite E3 in Hstep. simplify_eq. eexists. split; [reflexivity|].
    unfold jobs_to. simpl. by rewrite Nat.eqb_refl.
Qed.

Lemma one_shot_without_stats_witness :
  match step query_only_config (EvOnline 1) (main query_only_config true).1 with
  | Some (s1, job) =>
      match run query_only_config
                [EvTick; interval_report 1 (read_report 5 0 0); EvTick] s1 with
      | Some (_, e) =>
          exists o, job = [Send 1 (MsgQuery o)] /\ jobs_to 1 (job ++ e) = [MsgQuery o]
      | None => False
      end
  | None => False
  end.
Proof.
  destruct (step query_only_config (EvOnline 1) (main query_only_config true).1)
    as [[s1 job]|] eqn:Hstep; [|vm_compute in Hstep; discriminate].
  destruct (run query_only_config
              [EvTick; interval_report 1 (read_report 5 0 0); EvTick] s1)
    as [[s2 e]|] eqn:Hrun.
  - apply (one_shot_without_stats query_only_config 1
             (main query_only_config true).1 s1 s2 job e
             [EvTick; interval_report 1 (read_report 5 0 0); EvTick]);
      try done.
    + left. reflexivity.
    + by repeat constructor.
  - vm_compute in Hstep. inversion Hstep; subst.
    vm_compute in Hrun. discriminate.
Defined.

(** ** The iteration limit *)

(** What one completion report does under an iteration limit. *)
Lemma completion_step (argv : config) (limit : Z) (w : nat) (op_stats : payload)
    (s : state) :
  time argv = None -> iterations argv = Some limit -> halted s = None ->
  step argv (completion_report w op_stats) s =
    if (iteration_of s w <? limit)%Z
    then Some (set_iteration (<[w := (iteration_of s w + 1)%Z]> (iteration s)) s,
               [StatsIteration op_stats; Send w (MsgRun (rw_job argv))])
    else Some (s, [StatsIteration op_stats; Send w MsgEnd]).
Proof.
  intros Ht Hi Hh. unfold step, completion_report. rewrite Hh.
  unfold worker_results. simpl.
  unfold worker_results_iteration, continue, argv_iterations.
  rewrite Ht, Hi. simpl. rewrite orb_false_r.
  by destruct (iteration_of s w <? limit)%Z.
Qed.

Lemma rw_session_spec (argv : config) (limit : Z) (w : nat) (op_stats : payload) :
  time argv = None -> iterations argv = Some limit ->
  forall (n fuel : nat) (s : state),
    halted s = None ->
    n = Z.to_nat (limit - iteration_of s w) -> (n < fuel)%nat ->
    exists s' e,
      rw_session argv fuel w op_stats s = Some (s', e) /\
      sent_to w e = repeat (MsgRun (rw_job argv)) n ++ [MsgEnd] /\
      iteration_of s' w = Z.max (iteration_of s w) limit.
Proof.
  intros Ht Hi. induction n as [|n IH]; intros fuel s Hh Hn Hfuel.
  - destruct fuel as [|fuel]; [lia|]. simpl.
    rewrite (completion_step argv limit w op_stats s Ht Hi Hh).
    assert (E : (iteration_of s w <? limit)%Z = false) by (apply Z.ltb_ge; lia).
    rewrite E. simpl. unfold got_run, sent_to. simpl. rewrite Nat.eqb_refl. simpl.
    exists s, [StatsIteration op_stats; Send w MsgEnd].
    split; [reflexivity|]. split; [simpl; by rewrite Nat.eqb_refl | lia].
  - destruct fuel as [|fuel]; [lia|]. simpl.
    rewrite (completion_step argv limit w op_stats s Ht Hi Hh).
    assert (E : (iteration_of s w <? limit)%Z = true) by (apply Z.ltb_lt; lia).
    rewrite E. simpl.
    set (s1 := set_iteration (<[w := (iteration_of s w + 1)%Z]> (iteration s)) s).
    assert (Hit : iteration_of s1 w = (iteration_of s w + 1)%Z)
      by (unfold iteration_of at 1; simpl; apply lookup_total_insert_eq).
    destruct (IH fuel s1) as (s' & e & Hrun & Hsent & Hfinal); [done | lia | lia |].
    unfold got_run, sent_to. simpl. rewrite Nat.eqb_refl. simpl.
    rewrite Hrun. simpl.
    exists s', (StatsIteration op_stats :: Send w (MsgRun (rw_job argv)) :: e).
    split; [reflexivity|]. split.
    + unfold sent_to in Hsent |- *. simpl. rewrite Nat.eqb_refl. simpl.
      f_equal. exact Hsent.
    + rewrite Hfinal, Hit. lia.
Qed.

(** C4. With no duration and an iteration limit, a completion report
    from a worker whose iteration counter is below the limit is answered with
    a new ['run'] job and the counter goes up by one; a report from a worker
    whose counter has reached the limit is answered with ['end'] and no job.
    Hence a worker that reports once per job is sent a job for every report
    until its counter equals the limit, and then ['end'], once. *)
Theorem iteration_limit (argv : config) (limit : Z) (w : nat) (op_stats : payload)
    (s : state) :
  time argv = None -> iterations argv = Some limit -> halted s = None ->
  ((iteration_of s w < limit)%Z ->
   exists s1, step argv (completion_report w op_stats) s =
                Some (s1, [StatsIteration op_stats; Send w (MsgRun (rw_job argv))]) /\
              iteration_of s1 w = (iteration_of s w + 1)%Z) /\
  ((limit <= iteration_of s w)%Z ->
   step argv (completion_report w op_stats) s =
     Some (s, [StatsIteration op_stats; Send w MsgEnd])) /\
  (forall fuel : nat,
     (Z.to_nat (limit - iteration_of s w) < fuel)%nat ->
     exists s' e,
       rw_session argv fuel w op_stats s = Some (s', e) /\
       sent_to w e =
         repeat (MsgRun (rw_job argv)) (Z.to_nat (limit - iteration_of s w))
         ++ [MsgEnd] /\
       iteration_of s' w = Z.max (iteration_of s w) limit).
Proof.
  intros Ht Hi Hh. split; [|split].
  - intros Hlt. rewrite (completion_step argv limit w op_stats s Ht Hi Hh).
    assert (E : (iteration_of s w <? limit)%Z = true) by (by apply Z.ltb_lt).
    rewrite E. eexists. split; [reflexivity|].
    unfold iteration_of at 1. simpl. apply lookup_total_insert_eq.
  - intros Hge. rewrite (completion_step argv limit w op_stats s Ht Hi Hh).
    assert (E : (iteration_of s w <? limit)%Z = false) by (by apply Z.ltb_ge).
    by rewrite E.
  - intros fuel Hfuel.
    by apply (rw_session_spec argv limit w op_stats Ht Hi _ fuel s).
Qed.

Lemma iteration_limit_witness :
  match step mixed_config (EvOnline 1) (main mixed_config true).1 with
  | Some (s, job) =>
      job = [Send 1 (MsgRun (rw_job mixed_config))] /\
      exists s' e,
        rw_session mixed_config 5 1 PUndefined s = Some (s', e) /\
        sent_to 1 e =
          [MsgRun (rw_job mixed_config); MsgRun (rw_job mixed_config); MsgEnd] /\
        iteration_of s' 1 = 3%Z
  | None => False
  end.
Proof.
  destruct (step mixed_config (EvOnline 1) (main mixed_config true).1)
    as [[s job]|] eqn:Hstep; [|vm_compute in Hstep; discriminate].
  assert (Hs : halted s = None /\ iteration_of s 1 = 1%Z /\
               job = [Send 1 (MsgRun (rw_job mixed_config))]).
  { vm_compute in Hstep. inversion Hstep; subst. by vm_compute. }
  destruct Hs as (Hh & Hit & Hjob). split; [exact Hjob|].
  destruct (iteration_limit mixed_config 3 1 PUndefined s) as (_ & _ & Hsession);
    [reflexivity | reflexivity | exact Hh |].
  destruct (Hsession 5%nat) as (s' & e & Hrun & Hsent & Hfinal);
    [rewrite Hit; simpl; lia|].
  exists s', e. split; [exact Hrun|]. rewrite Hsent, Hfinal, Hit. by split.
Defined.

(** * Further properties of the master *)

(** ** The counters table along a run *)




(** A fold that goes through has added the report cell by cell, whatever
    else the report holds. *)
Lemma fold_interval_sum (w g g' : table) :
  wf_table g = true -> fold_interval w g = Some g' -> g' = table_add g w.
Proof.
  intros Hg H. table_cells g Hg. unfold fold_interval, OP_TYPES, STATS in H.
  destruct w as [|x0 w]; [simpl in H; discriminate|].
  destruct x0 as [|a0 [|b0 [|c0 x0]]]; try (simpl in H; discriminate).
  destruct w as [|x1 w]; [simpl in H; discriminate|].
  destruct x1 as [|a1 [|b1 [|c1 x1]]]; try (simpl in H; discriminate).
  destruct w as [|x2 w]; [simpl in H; discriminate|].
  destruct x2 as [|a2 [|b2 [|c2 x2]]]; try (simpl in H; discriminate).
  destruct w as [|x3 w]; [simpl in H; discriminate|].
  destruct x3 as [|a3 [|b3 [|c3 x3]]]; try (simpl in H; discriminate).
  simpl in H. inversion H; subst. reflexivity.
Qed.

Lemma main_table (argv : config) : interval_stats (main argv true).1 = zero_table.
Proof.
  destruct (main_spec argv) as (s & -> & Hsame & _). simpl.
  by destruct Hsame as (_ & _ & _ & _ & _ & -> & _).
Qed.

(** X1. In every state the master reaches, the global table has four rows
    of three cells, whatever tables the workers have sent. *)
Theorem table_shape_invariant (argv : config) (evs : list event) (s : state)
    (e : list effect) :
  run argv evs (main argv true).1 = Some (s, e) ->
  wf_table (interval_stats s) = true.
Proof.
  intros Hrun. eapply run_wf; [exact Hrun|]. by rewrite main_table.
Qed.

Lemma table_shape_invariant_witness :
  match run (plain_config 2)
            [EvOnline 1; interval_report 1 [[1; 2; 3; 4]; [5; 6; 7]; [8; 9; 10]; [11; 12; 13]; []]%Z]
            (main (plain_config 2) true).1 with
  | Some (s, _) => wf_table (interval_stats s) = true
  | None => False
  end.
Proof.
  destruct (run (plain_config 2)
              [EvOnline 1; interval_report 1 [[1; 2; 3; 4]; [5; 6; 7]; [8; 9; 10]; [11; 12; 13]; []]%Z]
              (main (plain_config 2) true).1) as [[s e]|] eqn:Hrun.
  - exact (table_shape_invariant _ _ _ _ Hrun).
  - vm_compute in Hrun. discriminate.
Defined.

(** What one turn does to the table. *)
Lemma step_table (argv : config) (ev : event) (s s1 : state) (e1 : list effect) :
  step argv ev s = Some (s1, e1) -> halted s = None ->
  wf_table (interval_stats s) = true ->
  interval_stats s1 =
    match ev with
    | EvTick => zero_table
    | EvDuration => if defined (time argv) then zero_table else interval_stats s
    | EvMessage _ m =>
        if is_interval_report ev
        then match body m with
             | PTable t => table_add (interval_stats s) t
             | _ => interval_stats s
             end
        else interval_stats s
    | _ => interval_stats s
    end.
Proof.
  intros Hstep Hh Hwf. unfold_handlers. rewrite Hh in Hstep.
  destruct ev as [w|w m| | |w code]; simpl.
  - unfold on_online, rwWorkerJob in Hstep.
    repeat case_match; simplify_option_eq; done.
  - destruct (String.eqb (tag m) "stats"); simpl.
    { repeat case_match; simplify_eq/=; done. }
    destruct (String.eqb (tag m) "alert"); simpl.
    { repeat case_match; simplify_eq/=; done. }
    destruct (body m) as [|t|a sev]; try discriminate.
    destruct (fold_interval t (interval_stats s)) as [g|] eqn:Hfold;
      simpl in Hstep; [|discriminate].
    inversion Hstep; subst. simpl. by apply fold_interval_sum.
  - by inversion Hstep; subst.
  - destruct (time argv); simpl; by inversion Hstep; subst.
  - repeat case_match; simplify_eq/=; done.
Qed.

Lemma run_table (argv : config) (evs : list event) :
  forall (s s' : state) (e : list effect) (acc : list table),
    run argv evs s = Some (s', e) -> halted s' = None ->
    wf_table (interval_stats s) = true ->
    interval_stats s = table_sum zero_table acc ->
    interval_stats s' =
      table_sum zero_table
        (foldl (fun acc ev =>
                  match ev with
                  | EvTick => []
                  | EvDuration => if defined (time argv) then [] else acc
                  | EvMessage _ m =>
                      if is_interval_report ev
                      then match body m with PTable t => acc ++ [t] | _ => acc end
                      else acc
                  | _ => acc
                  end) acc evs).
Proof.
  induction evs as [|ev evs IH]; intros s s' e acc Hrun Hh Hwf Hacc.
  - simpl in Hrun. inversion Hrun; subst. exact Hacc.
  - pose proof (run_alive argv _ _ _ _ Hrun Hh) as Hs. simpl in Hrun.
    destruct (step argv ev s) as [[s1 e1]|] eqn:Hstep; simpl in Hrun; [|discriminate].
    destruct (run argv evs s1) as [[s2 e2]|] eqn:Hrest; simpl in Hrun; [|discriminate].
    inversion Hrun; subst. cbn [foldl].
    apply (IH s1 s' e2); [exact Hrest | exact Hh | by eapply step_wf |].
    rewrite (step_table argv ev s s1 e1 Hstep Hs Hwf).
    destruct ev as [w|w m| | |w code]; try done.
    + destruct (is_interval_report (EvMessage w m)); [|done].
      destruct (body m) as [|t|a sev]; try done.
      unfold table_sum. rewrite foldl_app. simpl. by rewrite Hacc.
    + by destruct (defined (time argv)).
Qed.

(** X2. While the master runs, the global table is the cell-by-cell sum
    of the interval reports handled since the last reset (the one-second
    timer, or the duration timer when a duration is configured); reports that
    arrive after a tick are added to the new tick's table, flushed or not. *)
Theorem table_is_sum_since_tick (argv : config) (evs : list event) (s : state)
    (e : list effect) :
  run argv evs (main argv true).1 = Some (s, e) -> halted s = None ->
  interval_stats s = table_sum zero_table (since_tick argv evs).
Proof.
  intros Hrun Hh. unfold since_tick.
  apply (run_table argv evs _ s e [] Hrun Hh); by rewrite main_table.
Qed.

Lemma table_is_sum_since_tick_witness :
  match run (plain_config 2)
            [EvOnline 1; interval_report 1 (read_report 7 0 0); EvTick;
             interval_report 2 (read_report 10 0 0);
             interval_report 1 (read_report 15 1 0)]
            (main (plain_config 2) true).1 with
  | Some (s, _) => interval_stats s = read_report 25 1 0
  | None => False
  end.
Proof.
  destruct (run (plain_config 2)
              [EvOnline 1; interval_report 1 (read_report 7 0 0); EvTick;
               interval_report 2 (read_report 10 0 0);
               interval_report 1 (read_report 15 1 0)]
              (main (plain_config 2) true).1) as [[s e]|] eqn:Hrun.
  - rewrite (table_is_sum_since_tick _ _ _ _ Hrun); [reflexivity|].
    vm_compute in Hrun. by inversion Hrun.
  - vm_compute in Hrun. discriminate.
Defined.

(** ** Counting events *)

Lemma main_globals (argv : config) :
  online (main argv true).1 = 0%Z /\ exited (main argv true).1 = 0%Z /\
  counter (main argv true).1 = 0%Z /\ halted (main argv true).1 = None /\
  cluster_workers (main argv true).1 = seq 1 (Z.to_nat (processes argv)).
Proof.
  destruct (main_spec argv) as (s & -> & Hsame & Hw). simpl.
  destruct Hsame as (-> & -> & _ & _ & _ & _ & -> & ->). by repeat split.
Qed.

Lemma step_online_exited (argv : config) (ev : event) (s s1 : state)
    (e1 : list effect) :
  step argv ev s = Some (s1, e1) -> halted s = None -> halted s1 = None ->
  online s1 = (online s + if is_online ev then 1 else 0)%Z /\
  exited s1 = (exited s + if is_zero_exit ev then 1 else 0)%Z.
Proof.
  intros Hstep Hh Hh1. unfold_handlers. rewrite Hh in Hstep.
  destruct ev as [w|w m| | |w code]; simpl.
  - unfold on_online, rwWorkerJob in Hstep.
    repeat case_match; simplify_option_eq; split; lia.
  - repeat case_match; simplify_option_eq; split; lia.
  - inversion Hstep; subst. simpl. lia.
  - repeat case_match; simplify_eq/=; split; lia.
  - destruct (nonzero code); simpl in *.
    + inversion Hstep; subst. simpl in Hh1. discriminate.
    + repeat case_match; simplify_eq/=; split; lia.
Qed.

Lemma run_online_exited (argv : config) (evs : list event) :
  forall (s s' : state) (e : list effect),
    run argv evs s = Some (s', e) -> halted s' = None ->
    online s' = (online s + Z.of_nat (count_online evs))%Z /\
    exited s' = (exited s + Z.of_nat (count_zero_exits evs))%Z.
Proof.
  induction evs as [|ev evs IH]; intros s s' e Hrun Hh.
  - simpl in Hrun. inversion Hrun; subst.
    unfold count_online, count_zero_exits. simpl. lia.
  - pose proof (run_alive argv _ _ _ _ Hrun Hh) as Hs. simpl in Hrun.
    destruct (step argv ev s) as [[s1 e1]|] eqn:Hstep; simpl in Hrun; [|discriminate].
    destruct (run argv evs s1) as [[s2 e2]|] eqn:Hrest; simpl in Hrun; [|discriminate].
    inversion Hrun; subst.
    pose proof (run_alive argv _ _ _ _ Hrest Hh) as Hs1.
    destruct (IH _ _ _ Hrest Hh) as [Ho He].
    destruct (step_online_exited argv _ _ _ _ Hstep Hs Hs1) as [Ho1 He1].
    rewrite Ho, He, Ho1, He1. unfold count_online, count_zero_exits. simpl.
    destruct (is_online ev), (is_zero_exit ev); simpl; lia.
Qed.

(** X4. The zero-status test counts against the workers that have come
    online, not against those forked: after a run that left the master alive,
    the exit of a worker with status 0 ends the run (with status 0) exactly
    when the exits so far, this one included, are as many as the ['online']
    events so far. *)
Theorem exit_zero_when_online_exited (argv : config) (evs : list event)
    (s : state) (e : list effect) (w : nat) :
  run argv evs (main argv true).1 = Some (s, e) -> halted s = None ->
  exists s' e',
    step argv (EvExit w (Some 0%Z)) s = Some (s', e') /\
    (halted s' = Some 0%Z <->
     (count_zero_exits evs + 1)%nat = count_online evs) /\
    (halted s' = None <->
     (count_zero_exits evs + 1)%nat <> count_online evs).
Proof.
  intros Hrun Hh.
  destruct (run_online_exited argv evs _ _ _ Hrun Hh) as [Ho He].
  destruct (main_globals argv) as (Ho0 & He0 & _).
  rewrite Ho0 in Ho. rewrite He0 in He.
  unfold step. rewrite Hh. unfold on_exit, process_exit. simpl.
  destruct (exited s + 1 =? online s)%Z eqn:E.
  - apply Z.eqb_eq in E. rewrite E. simpl. eexists _, _. split; [reflexivity|].
    simpl. split; split; try done; try lia.
  - apply Z.eqb_neq in E. eexists _, _. split; [reflexivity|].
    simpl. rewrite Hh. split; split; try done; try lia.
Qed.

Lemma exit_zero_when_online_exited_witness :
  match run (plain_config 3) [EvOnline 1; EvOnline 2; EvExit 2 (Some 0%Z)]
            (main (plain_config 3) true).1 with
  | Some (s, _) =>
      exists s' e', step (plain_config 3) (EvExit 1 (Some 0%Z)) s = Some (s', e') /\
                    halted s' = Some 0%Z
  | None => False
  end.
Proof.
  destruct (run (plain_config 3) [EvOnline 1; EvOnline 2; EvExit 2 (Some 0%Z)]
              (main (plain_config 3) true).1) as [[s e]|] eqn:Hrun.
  - destruct (exit_zero_when_online_exited (plain_config 3) _ s e 1 Hrun)
      as (s' & e' & Hstep & Hzero & _).
    + vm_compute in Hrun. by inversion Hrun.
    + exists s', e'. split; [exact Hstep|]. by apply Hzero.
  - vm_compute in Hrun. discriminate.
Defined.

(** ** What ends the run *)

Lemma no_exit_in_sends (f : nat -> out_msg) (ws : list nat) :
  existsb is_process_exit (map (fun id => Send id (f id)) ws) = false.
Proof. induction ws as [|id ws IH]; [done|]. exact IH. Qed.

Lemma no_exit_in_flush (argv : config) (t : table) :
  existsb is_process_exit (flush argv t) = false.
Proof.
  unfold flush, print_interval_stats. destruct (silent argv); [done|].
  simpl. by repeat case_match.
Qed.

Lemma step_alive_unless_exit (argv : config) (ev : event) (s s1 : state)
    (e1 : list effect) :
  step argv ev s = Some (s1, e1) -> is_exit ev = false ->
  halted s1 = halted s /\ existsb is_process_exit e1 = false.
Proof.
  intros Hstep Hev. unfold step in Hstep.
  destruct (halted s) eqn:Hh; [by inversion Hstep; subst|].
  destruct ev as [w|w m| | |w code]; [| | | |discriminate].
  - unfold on_online, rwWorkerJob, queryWorkerJob, scanWorkerJob in Hstep.
    repeat case_match; simplify_option_eq; done.
  - unfold worker_results, worker_results_iteration, worker_results_interval,
      rwWorkerJob, worker_exit in Hstep.
    repeat case_match; simplify_option_eq; try done.
    split; [done|]. case_match; [apply no_exit_in_flush | done].
  - inversion Hstep; subst. split; [done|].
    apply (no_exit_in_sends (fun _ => MsgTrans)).
  - unfold on_duration in Hstep. case_match; simplify_eq/=; [|done].
    split; [done|]. rewrite existsb_app.
    unfold worker_probe, worker_shutdown, worker_exit. simpl.
    rewrite (no_exit_in_sends (fun _ => MsgTrans)). simpl.
    induction (cluster_workers s) as [|id ws IH]; [done|]. exact IH.
Qed.

(** X5. The master never ends the run by itself: as long as no worker
    exits, no timer, message or ['online'] event makes it call
    [process.exit].  After the duration timer has asked the workers to end,
    the master waits for their exits. *)
Theorem only_exits_end_the_run (argv : config) (evs : list event) (s : state)
    (e : list effect) :
  run argv evs (main argv true).1 = Some (s, e) ->
  forallb (fun ev => negb (is_exit ev)) evs = true ->
  halted s = None /\ existsb is_process_exit e = false.
Proof.
  destruct (main_globals argv) as (_ & _ & _ & Hh0 & _).
  revert Hh0. generalize (main argv true).1 as s0. revert s e.
  induction evs as [|ev evs IH]; intros s e s0 Hh0 Hrun Hall.
  - simpl in Hrun. by inversion Hrun; subst.
  - simpl in Hrun, Hall. apply andb_prop in Hall as [Hev Hall].
    apply negb_true_iff in Hev.
    destruct (step argv ev s0) as [[s1 e1]|] eqn:Hstep; simpl in Hrun; [|discriminate].
    destruct (run argv evs s1) as [[s2 e2]|] eqn:Hrest; simpl in Hrun; [|discriminate].
    inversion Hrun; subst.
    destruct (step_alive_unless_exit argv _ _ _ _ Hstep Hev) as [Hh1 He1].
    destruct (IH s e2 s1) as [Hh He2]; [congruence | exact Hrest | exact Hall |].
    split; [exact Hh|]. by rewrite existsb_app, He1, He2.
Qed.

Lemma only_exits_end_the_run_witness :
  match run mixed_config
            [EvOnline 1; EvOnline 2; EvTick; completion_report 1 PUndefined;
             EvDuration; interval_report 2 (read_report 1 0 0)]
            (main mixed_config true).1 with
  | Some (s, e) => halted s = None /\ existsb is_process_exit e = false
  | None => False
  end.
Proof.
  destruct (run mixed_config
              [EvOnline 1; EvOnline 2; EvTick; completion_report 1 PUndefined;
               EvDuration; interval_report 2 (read_report 1 0 0)]
              (main mixed_config true).1) as [[s e]|] eqn:Hrun.
  - apply (only_exits_end_the_run mixed_config _ s e Hrun). reflexivity.
  - vm_compute in Hrun. discriminate.
Defined.

(** ** The timers and the live workers *)





Lemma worker_shutdown_map (s : state) :
  worker_shutdown s = map (fun id => Send id MsgEnd) (cluster_workers s).
Proof.
  unfold worker_shutdown, worker_exit.
  induction (cluster_workers s) as [|id ws IH]; [done|]. simpl. by rewrite IH.
Qed.



(** ** The iteration counter *)

Lemma count_runs_app (w : nat) (e1 e2 : list effect) :
  count_runs w (e1 ++ e2) = (count_runs w e1 + count_runs w e2)%nat.
Proof.
  unfold count_runs. by rewrite jobs_to_app, List.filter_app, length_app.
Qed.

Lemma count_runs_no_job (w : nat) (e : list effect) :
  jobs_to w e = [] -> count_runs w e = 0%nat.
Proof. unfold count_runs. by intros ->. Qed.

Lemma rwWorkerJob_iteration (argv : config) (w w' : nat) (s : state) :
  iteration_of (rwWorkerJob argv w' s).1 w =
    (iteration_of s w + Z.of_nat (count_runs w (rwWorkerJob argv w' s).2))%Z.
Proof.
  unfold rwWorkerJob, iteration_of, count_runs, jobs_to. simpl.
  destruct (w =? w')%nat eqn:E.
  - apply Nat.eqb_eq in E. subst w'. rewrite lookup_total_insert_eq. simpl. lia.
  - apply Nat.eqb_neq in E. rewrite lookup_total_insert_ne by done. simpl. lia.
Qed.

Lemma step_iteration (argv : config) (w : nat) (ev : event) (s s1 : state)
    (e1 : list effect) :
  step argv ev s = Some (s1, e1) ->
  iteration_of s1 w = (iteration_of s w + Z.of_nat (count_runs w e1))%Z.
Proof.
  intros Hstep. unfold step in Hstep.
  destruct (halted s) eqn:Hh;
    [inversion Hstep; subst; unfold count_runs; simpl; lia|].
  destruct ev as [w'|w' m| | |w' code].
  - unfold on_online in Hstep. simpl in Hstep.
    destruct (rwOnline s <? rwWorkers argv)%Z.
    { inversion Hstep; subst.
      apply (rwWorkerJob_iteration argv w w'
               (set_rwOnline (rwOnline s + 1) (set_online (online s + 1) s))). }
    unfold queryWorkerJob, scanWorkerJob in Hstep.
    repeat case_match; simplify_option_eq;
      unfold count_runs, jobs_to, iteration_of; simpl;
      try lia; destruct (w =? w')%nat; simpl; lia.
  - unfold worker_results in Hstep.
    destruct (String.eqb (tag m) "stats").
    + unfold worker_results_iteration in Hstep.
      destruct (continue argv w' s).
      * pose proof (rwWorkerJob_iteration argv w w' s) as Hjob.
        destruct (rwWorkerJob argv w' s) as [s2 e2]. inversion Hstep; subst.
        simpl in Hjob. rewrite Hjob. reflexivity.
      * inversion Hstep; subst. unfold count_runs, jobs_to, worker_exit. simpl.
        destruct (w =? w')%nat; simpl; lia.
    + rewrite count_runs_no_job.
      * unfold worker_results_interval in Hstep.
        repeat case_match; simplify_option_eq; unfold iteration_of; simpl; lia.
      * unfold worker_results_interval in Hstep.
        repeat case_match; simplify_option_eq; try done.
        case_match; [apply jobs_to_flush | done].
  - inversion Hstep; subst. rewrite count_runs_no_job by apply jobs_to_probe.
    unfold iteration_of, on_tick, reset_interval_stats. simpl. lia.
  - unfold on_duration in Hstep. case_match; simplify_eq;
      [|unfold count_runs; simpl; lia].
    rewrite count_runs_no_job
      by (by rewrite jobs_to_app, jobs_to_probe, jobs_to_shutdown).
    unfold iteration_of, reset_interval_stats. simpl. lia.
  - rewrite (count_runs_no_job w e1).
    + unfold on_exit, process_exit in Hstep.
      repeat case_match; simplify_eq/=; unfold iteration_of; simpl; lia.
    + eapply (step_no_job argv w (EvExit w' code) s s1 e1); [|done].
      unfold step. by rewrite Hh.
Qed.

Lemma run_iteration (argv : config) (w : nat) (evs : list event) :
  forall (s s' : state) (e : list effect),
    run argv evs s = Some (s', e) ->
    iteration_of s' w = (iteration_of s w + Z.of_nat (count_runs w e))%Z.
Proof.
  induction evs as [|ev evs IH]; intros s s' e Hrun; simpl in Hrun.
  - inversion Hrun; subst. unfold count_runs. simpl. lia.
  - destruct (step argv ev s) as [[s1 e1]|] eqn:Hstep; simpl in Hrun; [|discriminate].
    destruct (run argv evs s1) as [[s2 e2]|] eqn:Hrest; simpl in Hrun; [|discriminate].
    inversion Hrun; subst.
    rewrite (IH _ _ _ Hrest), (step_iteration argv w _ _ _ _ Hstep), count_runs_app.
    lia.
Qed.

Lemma spawn_iteration (w : nat) (ps : list nat) :
  forall (s : state) (e : list effect),
    iteration_of s w = 0%Z \/ w ∈ map S ps ->
    iteration_of
      (foldl (fun '(s1, e1) p => let '(s2, e2) := worker_spawn (S p) s1 in (s2, e1 ++ e2))
             (s, e) ps).1 w = 0%Z.
Proof.
  induction ps as [|p ps IH]; intros s e Hs.
  - destruct Hs as [Hs|Hin]; [done|]. by apply elem_of_nil in Hin.
  - cbn [foldl]. unfold worker_spawn at 2. apply IH.
    unfold iteration_of. simpl.
    destruct (decide (S p = w)) as [->|Hne].
    + left. by rewrite lookup_total_insert_eq.
    + rewrite lookup_total_insert_ne by done.
      destruct Hs as [Hs|Hin]; [by left|]. right.
      simpl in Hin. apply elem_of_cons in Hin as [->|Hin]; done.
Qed.

(** Every worker forked at start-up starts with [iteration = 0]. *)
Lemma main_iteration (argv : config) (w : nat) :
  (1 <= w <= Z.to_nat (processes argv))%nat ->
  iteration_of (main argv true).1 w = 0%Z.
Proof.
  intros Hw. unfold main, spawn_all. simpl.
  pose proof (spawn_iteration w (seq 0 (Z.to_nat (processes argv))) init_state []) as H.
  destruct (foldl _ _ _) as [s e]. simpl in *. apply H. right.
  rewrite List.seq_shift. apply elem_of_seq. lia.
Qed.

(** X7. For every worker forked at start-up, the [iteration] field counts
    the ['run'] jobs the master has sent it since, and nothing else: query
    and scan jobs, ['trans'] and ['end'] do not move it. *)
Theorem iteration_counts_run_jobs (argv : config) (evs : list event) (s : state)
    (e : list effect) (w : nat) :
  (1 <= w <= Z.to_nat (processes argv))%nat ->
  run argv evs (main argv true).1 = Some (s, e) ->
  iteration_of s w = Z.of_nat (count_runs w e).
Proof.
  intros Hw Hrun.
  rewrite (run_iteration argv w evs _ _ _ Hrun), (main_iteration argv w Hw). lia.
Qed.

Lemma iteration_counts_run_jobs_witness :
  match run mixed_config
            [EvOnline 1; EvOnline 2; EvOnline 3; completion_report 1 PUndefined;
             EvTick; completion_report 3 PUndefined]
            (main mixed_config true).1 with
  | Some (s, e) =>
      iteration_of s 1 = Z.of_nat (count_runs 1 e) /\ count_runs 1 e = 2%nat /\
      iteration_of s 3 = Z.of_nat (count_runs 3 e) /\ count_runs 3 e = 1%nat
  | None => False
  end.
Proof.
  destruct (run mixed_config
              [EvOnline 1; EvOnline 2; EvOnline 3; completion_report 1 PUndefined;
               EvTick; completion_report 3 PUndefined]
              (main mixed_config true).1) as [[s e]|] eqn:Hrun.
  - split; [eapply iteration_counts_run_jobs; [|exact Hrun]; simpl; lia|].
    split; [vm_compute in Hrun; by inversion Hrun|].
    split; [eapply iteration_counts_run_jobs; [|exact Hrun]; simpl; lia|].
    vm_compute in Hrun. by inversion Hrun.
  - vm_compute in Hrun. discriminate.
Defined.

Lemma count_runs_online (argv : config) (w w' : nat) (s s1 : state)
    (e1 : list effect) :
  on_online argv w' s = Some (s1, e1) -> (count_runs w e1 <= 1)%nat.
Proof.
  unfold on_online, rwWorkerJob, queryWorkerJob, scanWorkerJob. intros Hstep.
  repeat case_match; simplify_option_eq; unfold count_runs, jobs_to; simpl;
    try lia; destruct (w =? w')%nat; simpl; lia.
Qed.

Lemma step_iteration_bound (argv : config) (limit : Z) (w : nat) (ev : event)
    (s s1 : state) (e1 : list effect) :
  time argv = None -> iterations argv = Some limit ->
  step argv ev s = Some (s1, e1) ->
  (iteration_of s1 w <=
   Z.max (iteration_of s w +
          match ev with EvOnline w' => if (w =? w')%nat then 1 else 0 | _ => 0 end)
         limit)%Z.
Proof.
  intros Ht Hi Hstep.
  rewrite (step_iteration argv w ev s s1 e1 Hstep).
  destruct (redrives w ev) eqn:Hre.
  - destruct (halted s) eqn:Hh.
    { unfold step in Hstep. rewrite Hh in Hstep. inversion Hstep; subst.
      unfold count_runs. simpl.
      destruct ev as [w'|w' m| | |w' code]; try lia.
      destruct (w =? w')%nat; lia. }
    destruct ev as [w'|w' m| | |w' code]; simpl in Hre; try discriminate.
    + rewrite Hre. unfold step in Hstep. rewrite Hh in Hstep.
      pose proof (count_runs_online argv w w' s s1 e1 Hstep). lia.
    + apply andb_prop in Hre as [Hw Htag].
      apply Nat.eqb_eq in Hw. apply String.eqb_eq in Htag. subst w'.
      destruct m as [tg bd]. simpl in Htag. subst tg.
      change (EvMessage w {| tag := "stats"; body := bd |})
        with (completion_report w bd) in Hstep.
      rewrite (completion_step argv limit w bd s Ht Hi Hh) in Hstep.
      destruct (iteration_of s w <? limit)%Z eqn:E; inversion Hstep; subst.
      * apply Z.ltb_lt in E. unfold count_runs, jobs_to. simpl.
        rewrite Nat.eqb_refl. simpl. lia.
      * unfold count_runs, jobs_to. simpl. lia.
  - rewrite (count_runs_no_job w e1 (step_no_job argv w ev s s1 e1 Hstep Hre)).
    destruct ev as [w'|w' m| | |w' code]; simpl in *; try lia.
    rewrite Hre. lia.
Qed.

Lemma run_iteration_bound (argv : config) (limit : Z) (w : nat) (evs : list event) :
  time argv = None -> iterations argv = Some limit ->
  forall (s s' : state) (e : list effect),
    run argv evs s = Some (s', e) ->
    (iteration_of s' w <=
     Z.max (iteration_of s w) limit + Z.of_nat (count_online_of w evs))%Z.
Proof.
  intros Ht Hi. induction evs as [|ev evs IH]; intros s s' e Hrun; simpl in Hrun.
  - inversion Hrun; subst. unfold count_online_of. simpl. lia.
  - destruct (step argv ev s) as [[s1 e1]|] eqn:Hstep; simpl in Hrun; [|discriminate].
    destruct (run argv evs s1) as [[s2 e2]|] eqn:Hrest; simpl in Hrun; [|discriminate].
    inversion Hrun; subst.
    pose proof (IH _ _ _ Hrest) as Hrec.
    pose proof (step_iteration_bound argv limit w ev s s1 e1 Ht Hi Hstep) as Hone.
    unfold count_online_of in *. simpl.
    destruct ev as [w'|w' m| | |w' code]; simpl; try lia.
    destruct (w =? w')%nat; simpl; lia.
Qed.

(** X8. With no duration and an iteration limit, the number of ['run']
    jobs the master sends to a forked worker is bounded: it never exceeds the
    limit (or 0 if the limit is negative) plus the number of the worker's
    ['online'] events, whatever the worker and the others send and in
    whatever order. *)
Theorem run_jobs_bounded (argv : config) (limit : Z) (evs : list event)
    (s : state) (e : list effect) (w : nat) :
  time argv = None -> iterations argv = Some limit ->
  (1 <= w <= Z.to_nat (processes argv))%nat ->
  run argv evs (main argv true).1 = Some (s, e) ->
  (Z.of_nat (count_runs w e) <=
   Z.max 0 limit + Z.of_nat (count_online_of w evs))%Z.
Proof.
  intros Ht Hi Hw Hrun.
  pose proof (run_iteration_bound argv limit w evs Ht Hi _ _ _ Hrun) as Hb.
  rewrite (run_iteration argv w evs _ _ _ Hrun) in Hb.
  rewrite (main_iteration argv w Hw) in Hb. lia.
Qed.

Lemma run_jobs_bounded_witness :
  match run mixed_config
            [EvOnline 1; completion_report 1 PUndefined; completion_report 1 PUndefined;
             completion_report 1 PUndefined; completion_report 1 PUndefined]
            (main mixed_config true).1 with
  | Some (_, e) => (Z.of_nat (count_runs 1 e) <= 4)%Z
  | None => False
  end.
Proof.
  destruct (run mixed_config
              [EvOnline 1; completion_report 1 PUndefined; completion_report 1 PUndefined;
               completion_report 1 PUndefined; completion_report 1 PUndefined]
              (main mixed_config true).1) as [[s e]|] eqn:Hrun.
  - assert (Hw : (1 <= 1 <= Z.to_nat (processes mixed_config))%nat) by (simpl; lia).
    pose proof (run_jobs_bounded mixed_config 3 _ s e 1 eq_refl eq_refl Hw Hrun) as Hb.
    unfold count_online_of in Hb. simpl in Hb. lia.
  - vm_compute in Hrun. discriminate.
Defined.

(** X9. A configured duration disables the iteration limit: when
    [argv.time] is set, or when no iteration limit is set, every completion
    report is answered with a new ['run'] job, whatever the worker's iteration
    counter, and also after the duration timer has sent ['end']. *)
Theorem duration_overrides_limit (argv : config) (w : nat) (op_stats : payload)
    (s : state) :
  is_Some (time argv) \/ iterations argv = None ->
  halted s = None ->
  step argv (completion_report w op_stats) s =
    Some (set_iteration (<[w := (iteration_of s w + 1)%Z]> (iteration s)) s,
          [StatsIteration op_stats; Send w (MsgRun (rw_job argv))]).
Proof.
  intros Hmode Hh. unfold step, completion_report. rewrite Hh.
  unfold worker_results. simpl.
  unfold worker_results_iteration, continue, argv_iterations.
  destruct Hmode as [[t Ht]|Hi].
  - by rewrite Ht.
  - rewrite Hi. by destruct (time argv).
Qed.

Lemma duration_overrides_limit_witness :
  match run duration_config
            [EvOnline 1; completion_report 1 PUndefined; EvDuration]
            (main duration_config true).1 with
  | Some (s, _) =>
      iteration_of s 1 = 2%Z /\
      exists s', step duration_config (completion_report 1 PUndefined) s =
                   Some (s', [StatsIteration PUndefined;
                              Send 1 (MsgRun (rw_job duration_config))])
  | None => False
  end.
Proof.
  destruct (run duration_config
              [EvOnline 1; completion_report 1 PUndefined; EvDuration]
              (main duration_config true).1) as [[s e]|] eqn:Hrun.
  - assert (Hs : halted s = None /\ iteration_of s 1 = 2%Z)
      by (vm_compute in Hrun; inversion Hrun; by vm_compute).
    destruct Hs as [Hh Hit]. split; [exact Hit|]. eexists.
    apply (duration_overrides_limit duration_config 1 PUndefined s);
      [left; by eexists | exact Hh].
  - vm_compute in Hrun. discriminate.
Defined.

(** ** How often the table is flushed *)

Lemma count_flushes_app (e1 e2 : list effect) :
  count_flushes (e1 ++ e2) = (count_flushes e1 + count_flushes e2)%nat.
Proof. unfold count_flushes. by rewrite List.filter_app, length_app. Qed.

Lemma count_flushes_sends (f : nat -> out_msg) (ws : list nat) :
  count_flushes (map (fun id => Send id (f id)) ws) = 0%nat.
Proof. induction ws as [|id ws IH]; [done|]. exact IH. Qed.

Lemma count_flushes_flush (argv : config) (t : table) :
  count_flushes (flush argv t) = 1%nat.
Proof.
  unfold flush, print_interval_stats, count_flushes.
  destruct (silent argv); [done|]. simpl. by repeat case_match.
Qed.

Lemma step_flushes (argv : config) (ev : event) (s s1 : state) (e1 : list effect) :
  step argv ev s = Some (s1, e1) -> halted s = None ->
  count_flushes e1 =
    if is_interval_report ev && flush_due argv (counter s + 1) then 1%nat else 0%nat.
Proof.
  intros Hstep Hh. unfold step in Hstep. rewrite Hh in Hstep.
  destruct ev as [w|w m| | |w code]; cbn [is_interval_report andb].
  - unfold on_online, rwWorkerJob, queryWorkerJob, scanWorkerJob in Hstep.
    repeat case_match; simplify_option_eq; done.
  - unfold worker_results, worker_results_iteration, worker_results_interval,
      rwWorkerJob, worker_exit in Hstep.
    destruct (String.eqb (tag m) "stats"); cbn [negb andb].
    { repeat case_match; simplify_eq/=; done. }
    destruct (String.eqb (tag m) "alert"); cbn [negb andb].
    { repeat case_match; simplify_eq/=; done. }
    destruct (body m) as [|t|a sev]; try discriminate.
    destruct (fold_interval t (interval_stats s)) as [g|]; simpl in Hstep;
      [|discriminate].
    inversion Hstep; subst.
    destruct (flush_due argv (counter s + 1)); [apply count_flushes_flush | done].
  - inversion Hstep; subst. apply (count_flushes_sends (fun _ => MsgTrans)).
  - unfold on_duration in Hstep. case_match; simplify_eq/=; [|done].
    rewrite count_flushes_app, worker_shutdown_map. unfold worker_probe. simpl.
    by rewrite (count_flushes_sends (fun _ => MsgTrans)),
      (count_flushes_sends (fun _ => MsgEnd)).
  - unfold on_exit, process_exit, finalize in Hstep.
    repeat case_match; simplify_eq/=; done.
Qed.

Lemma div_succ (c p : Z) :
  (0 <= c)%Z -> (0 < p)%Z ->
  ((c + 1) / p = c / p + if rem_is_zero (c + 1) p then 1 else 0)%Z.
Proof.
  intros Hc Hp. unfold rem_is_zero.
  assert (Hp0 : (p =? 0)%Z = false) by (apply Z.eqb_neq; lia). rewrite Hp0.
  rewrite Z.rem_mod_nonneg by lia.
  pose proof (Z.div_mod c p ltac:(lia)) as Hdm.
  pose proof (Z.mod_pos_bound c p Hp) as Hr.
  destruct (Z.eq_dec (c mod p + 1)%Z p) as [Heq|Hne].
  - assert (Hm : ((c + 1) mod p = 0)%Z).
    { symmetry. apply (Z.mod_unique_pos _ _ (c / p + 1)); lia. }
    rewrite Hm. simpl. symmetry. apply (Z.div_unique_pos _ _ _ 0); lia.
  - assert (Hm : ((c + 1) mod p = c mod p + 1)%Z).
    { symmetry. apply (Z.mod_unique_pos _ _ (c / p)); lia. }
    rewrite Hm.
    assert (Hz : (c mod p + 1 =? 0)%Z = false) by (apply Z.eqb_neq; lia).
    rewrite Hz. symmetry. apply (Z.div_unique_pos _ _ _ (c mod p + 1)); lia.
Qed.

Lemma run_flushes (argv : config) (evs : list event) :
  (0 < processes argv)%Z ->
  forall (s s' : state) (e : list effect),
    run argv evs s = Some (s', e) -> halted s' = None -> (0 <= counter s)%Z ->
    (Z.of_nat (count_flushes e) =
     (counter s + Z.of_nat (count_reports evs)) / processes argv
     - counter s / processes argv)%Z.
Proof.
  intros Hp. induction evs as [|ev evs IH]; intros s s' e Hrun Hh Hc.
  - simpl in Hrun. inversion Hrun; subst. unfold count_reports, count_flushes.
    simpl. rewrite Z.add_0_r. lia.
  - pose proof (run_alive argv _ _ _ _ Hrun Hh) as Hs. simpl in Hrun.
    destruct (step argv ev s) as [[s1 e1]|] eqn:Hstep; simpl in Hrun; [|discriminate].
    destruct (run argv evs s1) as [[s2 e2]|] eqn:Hrest; simpl in Hrun; [|discriminate].
    inversion Hrun; subst.
    pose proof (step_counter argv _ _ _ _ Hstep Hs) as Hc1.
    pose proof (step_flushes argv _ _ _ _ Hstep Hs) as Hf1.
    rewrite count_flushes_app, Nat2Z.inj_add, Hf1.
    rewrite (IH _ _ _ Hrest Hh) by (destruct (is_interval_report ev); lia).
    rewrite Hc1.
    assert (Hn : count_reports (ev :: evs) =
                 ((if is_interval_report ev then 1 else 0) + count_reports evs)%nat).
    { unfold count_reports. simpl. by destruct (is_interval_report ev). }
    rewrite Hn. generalize (count_reports evs) as n. intros n.
    destruct (is_interval_report ev); cbn [andb].
    + replace (counter s + Z.of_nat (1 + n))%Z
        with (counter s + 1 + Z.of_nat n)%Z by lia.
      unfold flush_due.
      rewrite (div_succ (counter s) (processes argv) Hc Hp).
      destruct (rem_is_zero (counter s + 1) (processes argv)); lia.
    + replace (counter s + 0 + Z.of_nat n)%Z with (counter s + Z.of_nat (0 + n))%Z
        by lia.
      rewrite Z.add_0_r. lia.
Qed.

(** X10. With a positive number of processes, the number of records the
    master has handed to the stats sink after [n] interval reports is the
    integer quotient of [n] by [argv.processes]: one record per
    [argv.processes] reports, whoever sent them and whatever the timers did
    in between. *)
Theorem flushes_per_reports (argv : config) (evs : list event) (s : state)
    (e : list effect) :
  (0 < processes argv)%Z ->
  run argv evs (main argv true).1 = Some (s, e) -> halted s = None ->
  Z.of_nat (count_flushes e) = (Z.of_nat (count_reports evs) / processes argv)%Z.
Proof.
  intros Hp Hrun Hh.
  destruct (main_globals argv) as (_ & _ & Hc0 & _).
  rewrite (run_flushes argv evs Hp _ _ _ Hrun Hh) by (rewrite Hc0; lia).
  rewrite Hc0, Z.add_0_l, Z.div_0_l by lia. lia.
Qed.

Lemma flushes_per_reports_witness :
  match run (plain_config 2)
            [EvOnline 1; interval_report 1 (read_report 1 0 0); EvTick;
             interval_report 1 (read_report 2 0 0);
             interval_report 1 (read_report 3 0 0)]
            (main (plain_config 2) true).1 with
  | Some (_, e) => count_flushes e = 1%nat
  | None => False
  end.
Proof.
  destruct (run (plain_config 2)
              [EvOnline 1; interval_report 1 (read_report 1 0 0); EvTick;
               interval_report 1 (read_report 2 0 0);
               interval_report 1 (read_report 3 0 0)]
              (main (plain_config 2) true).1) as [[s e]|] eqn:Hrun.
  - assert (Hh : halted s = None) by (vm_compute in Hrun; by inversion Hrun).
    pose proof (flushes_per_reports (plain_config 2) _ s e eq_refl Hrun Hh) as Hf.
    change (Z.of_nat (count_flushes e) = 1%Z) in Hf. lia.
  - vm_compute in Hrun. discriminate.
Defined.

(** * Properties of the UDF registration example *)

Lemma udf_turns_settled (OK : Z) (argv : UdfRegister.options)
    (errs : list (option UdfRegister.error)) (ph : UdfRegister.phase)
    (e : list UdfRegister.effect) :
  match ph with UdfRegister.Done | UdfRegister.Exited _ => True | _ => False end ->
  foldl (UdfRegister.turn OK argv) (ph, e) errs = (ph, e).
Proof.
  intros Hph. induction errs as [|err errs IH]; [done|].
  cbn [foldl]. unfold UdfRegister.turn at 2. simpl.
  destruct ph; try done; simpl; by rewrite app_nil_r.
Qed.

Lemma udf_turn_eval (OK : Z) (argv : UdfRegister.options)
    (ph : UdfRegister.phase) (e : list UdfRegister.effect)
    (err : option UdfRegister.error) :
  UdfRegister.turn OK argv (ph, e) err =
    ((UdfRegister.callback OK argv ph err).1,
     e ++ (UdfRegister.callback OK argv ph err).2).
Proof. reflexivity. Qed.

Ltac udf_simpl :=
  unfold UdfRegister.callback, UdfRegister.on_connect, UdfRegister.on_register,
    UdfRegister.on_wait, UdfRegister.isError, UdfRegister.failed;
  cbn -[foldl UdfRegister.turn Z.eqb take length]; rewrite ?udf_turn_eval.

Ltac udf_callbacks OK errs :=
  destruct errs as [|[[? ?]|] [|[[? ?]|] [|[[? ?]|] errs]]];
  cbn [foldl]; rewrite ?udf_turn_eval;
  repeat (udf_simpl;
          match goal with
          | |- context [(?c =? OK)%Z] => destruct (c =? OK)%Z eqn:?
          end);
  udf_simpl; rewrite ?udf_turns_settled by done.

(** X11. How the script ends.  It exits with status 0 exactly when help is
    asked for; with status 1 exactly when, help not being asked for, no file
    is given or one of the three callbacks (connect, register, wait) reports
    an error whose code is not [AEROSPIKE_OK]; and it runs to the end exactly
    when a file is given and all three callbacks have reported success. *)
Theorem udf_exit_status (OK : Z) (argv : UdfRegister.options)
    (errs : list (option UdfRegister.error)) :
  ((UdfRegister.script OK argv errs).1 = UdfRegister.Exited 0 <->
   UdfRegister.help argv = true) /\
  ((UdfRegister.script OK argv errs).1 = UdfRegister.Exited 1 <->
   UdfRegister.help argv = false /\
   (UdfRegister.truthy (UdfRegister.file argv) = false \/
    existsb (UdfRegister.failed OK) (take 3 errs) = true)) /\
  ((UdfRegister.script OK argv errs).1 = UdfRegister.Done <->
   UdfRegister.help argv = false /\
   UdfRegister.truthy (UdfRegister.file argv) = true /\
   (3 <= length errs)%nat /\
   existsb (UdfRegister.failed OK) (take 3 errs) = false).
Proof.
  unfold UdfRegister.script, UdfRegister.main.
  destruct (UdfRegister.help argv) eqn:Hhelp.
  { rewrite udf_turns_settled by done. simpl. naive_solver. }
  destruct (UdfRegister.truthy (UdfRegister.file argv)) eqn:Hfile; cbn [negb].
  2:{ rewrite udf_turns_settled by done. simpl. naive_solver. }
  udf_callbacks OK errs.
  all: simpl; unfold UdfRegister.failed; simpl.
  all: repeat match goal with H : (_ =? _)%Z = _ |- _ => rewrite H end; simpl.
  all: naive_solver lia.
Qed.

Lemma udf_exit_status_witness :
  (UdfRegister.script 0 (UdfRegister.example_options [JString "udf.lua"])
     [None; Some {| UdfRegister.code := 100; UdfRegister.message := "failed" |}]).1
  = UdfRegister.Exited 1.
Proof.
  apply (udf_exit_status 0 (UdfRegister.example_options [JString "udf.lua"])).
  split; [reflexivity|]. right. reflexivity.
Defined.

(** X12. The line that announces a successful registration is printed
    exactly when help is not asked for, a file is given, [quiet] is not set,
    and the three callbacks have all reported success; an error object whose
    code is [AEROSPIKE_OK] counts as success. *)
Theorem udf_success_line (OK : Z) (argv : UdfRegister.options)
    (errs : list (option UdfRegister.error)) :
  UdfRegister.logs_success (UdfRegister.script OK argv errs).2 = true <->
  UdfRegister.help argv = false /\
  UdfRegister.truthy (UdfRegister.file argv) = true /\
  UdfRegister.quiet argv = false /\
  (3 <= length errs)%nat /\
  existsb (UdfRegister.failed OK) (take 3 errs) = false.
Proof.
  unfold UdfRegister.script, UdfRegister.main.
  destruct (UdfRegister.help argv) eqn:Hhelp.
  { rewrite udf_turns_settled by done. simpl. naive_solver. }
  destruct (UdfRegister.truthy (UdfRegister.file argv)) eqn:Hfile; cbn [negb].
  2:{ rewrite udf_turns_settled by done. simpl. naive_solver. }
  udf_callbacks OK errs.
  all: destruct (UdfRegister.quiet argv) eqn:Hquiet.
  all: simpl; unfold UdfRegister.failed; simpl.
  all: repeat match goal with H : (_ =? _)%Z = _ |- _ => rewrite H end; simpl.
  all: naive_solver lia.
Qed.

Lemma udf_success_line_witness :
  UdfRegister.logs_success
    (UdfRegister.script 0 (UdfRegister.example_options [JString "udf.lua"])
       [None; Some {| UdfRegister.code := 0; UdfRegister.message := "ok" |}; None]).2
  = true.
Proof.
  apply (udf_success_line 0 (UdfRegister.example_options [JString "udf.lua"])).
  repeat split; simpl; lia.
Defined.

(** X13. The script calls the client in a fixed order and stops at the
    first failure: the calls it makes are [connect], [udfRegister] and
    [udfRegisterWait (file, 1000)], as many of them as one more than the
    number of callbacks that reported success before the first failure; no
    call is made when help is asked for or no file is given. *)
Theorem udf_calls_stop_at_failure (OK : Z) (argv : UdfRegister.options)
    (errs : list (option UdfRegister.error)) :
  UdfRegister.client_calls (UdfRegister.script OK argv errs).2 =
    if UdfRegister.help argv || negb (UdfRegister.truthy (UdfRegister.file argv))
    then []
    else take (S (UdfRegister.leading_ok OK errs))
              [UdfRegister.Connect (UdfRegister.config argv);
               UdfRegister.UdfRegister (UdfRegister.file argv);
               UdfRegister.UdfRegisterWait (UdfRegister.file argv) 1000].
Proof.
  unfold UdfRegister.script, UdfRegister.main.
  destruct (UdfRegister.help argv) eqn:Hhelp.
  { by rewrite udf_turns_settled by done. }
  destruct (UdfRegister.truthy (UdfRegister.file argv)) eqn:Hfile; cbn [negb orb].
  2:{ by rewrite udf_turns_settled by done. }
  udf_callbacks OK errs.
  all: destruct (UdfRegister.quiet argv) eqn:Hquiet.
  all: simpl; unfold UdfRegister.failed; simpl.
  all: repeat match goal with H : (_ =? _)%Z = _ |- _ => rewrite H end; simpl.
  all: done.
Qed.

(** X14. A failed connection ends the script without a word, a failed
    registration or a failed wait prints the error's message first: after a
    connect error nothing is written to the console, after a register or wait
    error exactly the line ["Error: " + message]. *)
Theorem udf_failure_lines (OK : Z) (argv : UdfRegister.options)
    (bad : UdfRegister.error) (ok1 ok2 : option UdfRegister.error)
    (rest : list (option UdfRegister.error)) :
  UdfRegister.help argv = false ->
  UdfRegister.truthy (UdfRegister.file argv) = true ->
  UdfRegister.code bad <> OK ->
  UdfRegister.failed OK ok1 = false -> UdfRegister.failed OK ok2 = false ->
  UdfRegister.console_errors
    (UdfRegister.script OK argv (Some bad :: rest)).2 = [] /\
  UdfRegister.console_errors
    (UdfRegister.script OK argv (ok1 :: Some bad :: rest)).2
    = ["Error: " +:+ UdfRegister.message bad] /\
  UdfRegister.console_errors
    (UdfRegister.script OK argv (ok1 :: ok2 :: Some bad :: rest)).2
    = ["Error: " +:+ UdfRegister.message bad].
Proof.
  intros Hhelp Hfile Hbad Hok1 Hok2.
  destruct bad as [cb mb]. simpl in Hbad. apply Z.eqb_neq in Hbad.
  unfold UdfRegister.script, UdfRegister.main. rewrite Hhelp, Hfile.
  cbn [negb foldl]. rewrite ?udf_turn_eval.
  destruct ok1 as [[c1 m1]|], ok2 as [[c2 m2]|];
    unfold UdfRegister.failed in Hok1, Hok2; simpl in Hok1, Hok2;
    repeat (udf_simpl;
            match goal with
            | |- context [(?c =? OK)%Z] => destruct (c =? OK)%Z eqn:?
            end; try discriminate);
    udf_simpl; rewrite ?udf_turns_settled by done; done.
Qed.

Lemma udf_failure_lines_witness :
  UdfRegister.console_errors
    (UdfRegister.script 0 (UdfRegister.example_options [JString "udf.lua"])
       [Some {| UdfRegister.code := 7; UdfRegister.message := "down" |}]).2 = [] /\
  UdfRegister.console_errors
    (UdfRegister.script 0 (UdfRegister.example_options [JString "udf.lua"])
       [None; Some {| UdfRegister.code := 7; UdfRegister.message := "down" |}]).2
    = ["Error: down"].
Proof.
  destruct (udf_failure_lines 0 (UdfRegister.example_options [JString "udf.lua"])
              {| UdfRegister.code := 7; UdfRegister.message := "down" |}
              None None []) as (H1 & H2 & _); try done.
Defined.
